(** * MyEssentials Ledger: the client data layer of [client/src/App.jsx]

    A shallow embedding of the item/store/receipt handlers, the pricing
    resolver, the filter/sort pipeline and the import/export codec of the
    application component, together with the properties the specification
    states about them.

    Modelling conventions.
    - A JavaScript number is a [num]: NaN, the two infinities, or a finite
      value carried as an exact rational.  Comparison, [Math.max], negation
      and the special-value rules of [+], [-] and [*] are those of IEEE 754;
      the rounding of finite sums and products is not modelled.
    - A scalar that the code reads with [||], [!== undefined], [Number(..)]
      or a relational operator is a [jsval].
    - JavaScript strings are [string]s; [toLowerCase] and [trim] act on the
      ASCII letters and the ASCII white space.
    - An IndexedDB object store is a [gmap] from the key path [id] to the
      record; a transaction either commits all of its requests or none. *)

From Stdlib Require Import ZArith QArith Lqa Ascii String List Bool Lia Permutation Sorted.
From stdpp Require Import base option gmap strings list fin_maps pretty.

#[local] Open Scope string_scope.
#[local] Open Scope list_scope.

(** ** JavaScript numbers and scalars *)

Module JS.

Inductive num : Type :=
| NaN
| NegInf
| Fin (q : Q)
| PosInf.

Definition Qltb (a b : Q) : bool := negb (Qle_bool b a).
Definition Qis0 (a : Q) : bool := Qeq_bool a 0.

Definition of_Z (z : Z) : num := Fin (inject_Z z).

(** [a < b] on numbers; false as soon as one side is NaN. *)
Definition num_lt (a b : num) : bool :=
  match a, b with
  | NaN, _ | _, NaN => false
  | PosInf, _ => false
  | _, NegInf => false
  | NegInf, _ => true
  | _, PosInf => true
  | Fin x, Fin y => Qltb x y
  end.

Definition num_gt (a b : num) : bool := num_lt b a.

Definition num_neg (a : num) : num :=
  match a with
  | NaN => NaN
  | NegInf => PosInf
  | PosInf => NegInf
  | Fin x => Fin (- x)
  end.

Definition num_add (a b : num) : num :=
  match a, b with
  | NaN, _ | _, NaN => NaN
  | PosInf, NegInf | NegInf, PosInf => NaN
  | PosInf, _ | _, PosInf => PosInf
  | NegInf, _ | _, NegInf => NegInf
  | Fin x, Fin y => Fin (x + y)
  end.

Definition num_sub (a b : num) : num := num_add a (num_neg b).

(** Sign of a non-NaN number: [Lt] negative, [Eq] zero, [Gt] positive. *)
Definition num_sign (a : num) : comparison :=
  match a with
  | NaN => Eq
  | NegInf => Lt
  | PosInf => Gt
  | Fin x => if Qltb x 0 then Lt else if Qis0 x then Eq else Gt
  end.

Definition num_mul (a b : num) : num :=
  match a, b with
  | NaN, _ | _, NaN => NaN
  | Fin x, Fin y => Fin (x * y)
  | _, _ =>
      match num_sign a, num_sign b with
      | Eq, _ | _, Eq => NaN
      | Lt, Lt | Gt, Gt => PosInf
      | _, _ => NegInf
      end
  end.

(** [Math.max(a, b)]: NaN if either argument is NaN. *)
Definition num_max (a b : num) : num :=
  match a, b with
  | NaN, _ | _, NaN => NaN
  | _, _ => if num_lt a b then b else a
  end.

(** The scalar values a field read can produce. *)
Inductive jsval : Type :=
| JUndefined
| JNull
| JBool (b : bool)
| JNum (n : num)
| JStr (s : string).

#[global] Instance jsval_inhabited : Inhabited jsval := populate JUndefined.

(** ToBoolean. *)
Definition truthy (v : jsval) : bool :=
  match v with
  | JUndefined | JNull => false
  | JBool b => b
  | JNum NaN => false
  | JNum (Fin x) => negb (Qis0 x)
  | JNum _ => true
  | JStr s => negb (String.eqb s "")
  end.

(** [a || b]. *)
Definition js_or (a b : jsval) : jsval := if truthy a then a else b.

(** [v !== undefined && v !== null]. *)
Definition defined (v : jsval) : bool :=
  match v with
  | JUndefined | JNull => false
  | _ => true
  end.

(** A simple decimal reader, used where a concrete [StringToNumber] is
    wanted: the empty string is 0, an optional sign followed by digits
    with an optional fraction is that number, anything else is NaN. *)
Definition digit (c : ascii) : option Z :=
  let n := Z.of_N (N_of_ascii c) in
  if ((48 <=? n) && (n <=? 57))%Z then Some (n - 48)%Z else None.

Fixpoint digits (s : string) (acc : Z) : option (Z * string) :=
  match s with
  | EmptyString => Some (acc, EmptyString)
  | String c s' =>
      match digit c with
      | Some d => digits s' (10 * acc + d)%Z
      | None => Some (acc, s)
      end
  end.

Fixpoint fraction (s : string) (acc : Z) (scale : positive) : option Q :=
  match s with
  | EmptyString => Some (acc # scale)
  | String c s' =>
      match digit c with
      | Some d => fraction s' (10 * acc + d)%Z (10 * scale)%positive
      | None => None
      end
  end.

Definition unsigned_decimal (s : string) : option Q :=
  match s with
  | EmptyString => None
  | String c _ =>
      match digit c with
      | None => None
      | Some _ =>
          match digits s 0%Z with
          | Some (i, EmptyString) => Some (inject_Z i)
          | Some (i, String "." rest) => fraction rest i 1%positive
          | _ => None
          end
      end
  end.

Definition decimalStringToNumber (s : string) : num :=
  match s with
  | EmptyString => Fin 0
  | String "-" s' =>
      match unsigned_decimal s' with Some q => Fin (- q) | None => NaN end
  | String "+" s' =>
      match unsigned_decimal s' with Some q => Fin q | None => NaN end
  | _ => match unsigned_decimal s with Some q => Fin q | None => NaN end
  end.

End JS.

(** The two conversions between strings and numbers are taken as given:
    [StringToNumber] is the numeric reading of a string ([Number("2.50")]),
    [NumberToString] the printing used by string concatenation. *)
Class Builtins : Type := {
  StringToNumber : string -> JS.num;
  NumberToString : JS.num -> string
}.

Module Coerce.
Import JS.

Section WithBuiltins.
Context {builtins : Builtins}.

(** ToNumber, which [Number(v)], [Math.max], [*] and the numeric
    comparisons apply to their operands. *)
Definition ToNumber (v : jsval) : num :=
  match v with
  | JUndefined => NaN
  | JNull => Fin 0
  | JBool true => Fin 1
  | JBool false => Fin 0
  | JNum n => n
  | JStr s => StringToNumber s
  end.

Definition ToString (v : jsval) : string :=
  match v with
  | JUndefined => "undefined"
  | JNull => "null"
  | JBool true => "true"
  | JBool false => "false"
  | JNum n => NumberToString n
  | JStr s => s
  end.

(** [a < b]: two strings compare by code units, anything else
    numerically. *)
Definition js_lt (a b : jsval) : bool :=
  match a, b with
  | JStr s, JStr t => String.ltb s t
  | _, _ => num_lt (ToNumber a) (ToNumber b)
  end.

Definition js_gt (a b : jsval) : bool := js_lt b a.

(** [a + b]: concatenation when one side is a string. *)
Definition js_add (a b : jsval) : jsval :=
  match a, b with
  | JStr _, _ | _, JStr _ => JStr (ToString a ++ ToString b)
  | _, _ => JNum (num_add (ToNumber a) (ToNumber b))
  end.

Definition js_mul (a b : jsval) : num := num_mul (ToNumber a) (ToNumber b).

(** [Math.max(a, b)] on arbitrary operands. *)
Definition Math_max (a b : jsval) : num := num_max (ToNumber a) (ToNumber b).

End WithBuiltins.
End Coerce.

(** ** Strings: [trim], [toLowerCase], [includes] *)

Module Str.

Definition is_space (c : ascii) : bool :=
  let n := N_of_ascii c in
  ((n =? 32) || ((9 <=? n) && (n <=? 13)))%N.

Fixpoint trimStart (s : string) : string :=
  match s with
  | EmptyString => EmptyString
  | String c s' => if is_space c then trimStart s' else s
  end.

Fixpoint trimEnd (s : string) : string :=
  match s with
  | EmptyString => EmptyString
  | String c s' =>
      match trimEnd s' with
      | EmptyString => if is_space c then EmptyString else String c EmptyString
      | t => String c t
      end
  end.

Definition trim (s : string) : string := trimEnd (trimStart s).

Definition lower (c : ascii) : ascii :=
  let n := N_of_ascii c in
  if ((65 <=? n) && (n <=? 90))%N then ascii_of_N (n + 32) else c.

Fixpoint toLowerCase (s : string) : string :=
  match s with
  | EmptyString => EmptyString
  | String c s' => String (lower c) (toLowerCase s')
  end.

Fixpoint startsWith (s p : string) : bool :=
  match p, s with
  | EmptyString, _ => true
  | String _ _, EmptyString => false
  | String a p', String b s' => Ascii.eqb a b && startsWith s' p'
  end.

(** [s.includes(t)]. *)
Fixpoint includes (s t : string) : bool :=
  startsWith s t ||
  match s with
  | EmptyString => false
  | String _ s' => includes s' t
  end.

(** [s.split(sep)] for a one-character separator. *)
Fixpoint split (sep : ascii) (s : string) : list string :=
  match s with
  | EmptyString => [EmptyString]
  | String c s' =>
      if Ascii.eqb c sep then EmptyString :: split sep s'
      else match split sep s' with
           | [] => [String c EmptyString]
           | piece :: rest => String c piece :: rest
           end
  end.

End Str.

(** ** Data model *)

Import JS Coerce.

(** One [{storeName, price}] row of an item. *)
Module StorePrice.
Record t : Type := mk { storeName : string; price : jsval }.
End StorePrice.

Module Item.
Record t : Type := mk {
  id : string;
  name : string;
  category : string;
  status : string;
  quantity : jsval;
  barcode : string;
  imageUrl : string;
  stores : option (list StorePrice.t)   (* [None]: absent, i.e. falsy *)
}.

(** [{ ...item, quantity: q }] and [{ ...item, status: s }]. *)
Definition with_quantity (q : jsval) (i : t) : t :=
  mk (id i) (name i) (category i) (status i) q (barcode i) (imageUrl i) (stores i).
Definition with_status (s : string) (i : t) : t :=
  mk (id i) (name i) (category i) s (quantity i) (barcode i) (imageUrl i) (stores i).
End Item.

Module Store.
Record t : Type := mk { id : string; name : string }.
End Store.

(** One line of a receipt snapshot. *)
Module Line.
Record t : Type := mk {
  id : string;
  name : string;
  quantity : jsval;
  cheapestPrice : jsval;
  cheapestStore : string;
  status : string
}.
End Line.

Module Receipt.
Record t : Type := mk {
  id : string;
  timestamp : string;
  filterUsed : string;
  estimatedTotal : jsval;
  itemCount : nat;
  items : list Line.t
}.
End Receipt.

Definition MAX_REUSABLE_STORES : nat := 50.
Definition STATUS_CYCLE : list string := ["Depleted"; "Running Low"; "Home Stocked"].

(** ** The persistent store *)

Module IDB.

(** The requests a transaction callback issues against its object store. *)
Inductive request (R : Type) : Type :=
| add (r : R)
| put (r : R)
| delete (key : string)
| clear.
Arguments add {R} r.
Arguments put {R} r.
Arguments delete {R} key.
Arguments clear {R}.

Section ObjectStore.
Context {R : Type} (keyPath : R -> string).

(** One request; [None] is a request error, which aborts the
    transaction.  [add] fails on a key that is already present. *)
Definition exec (m : gmap string R) (rq : request R) : option (gmap string R) :=
  match rq with
  | add r =>
      match m !! keyPath r with
      | Some _ => None
      | None => Some (<[keyPath r := r]> m)
      end
  | put r => Some (<[keyPath r := r]> m)
  | delete k => Some (base.delete k m)
  | clear => Some ∅
  end.

(** All requests of one transaction: all of them or none. *)
Fixpoint commit (rqs : list (request R)) (m : gmap string R) : option (gmap string R) :=
  match rqs with
  | [] => Some m
  | rq :: rest =>
      match exec m rq with
      | Some m' => commit rest m'
      | None => None
      end
  end.
End ObjectStore.

(** The database [GroceryDB]: whether it can be opened at all, and its
    three object stores, each keyed by [id]. *)
Record Database : Type := mkDatabase {
  available : bool;
  ITEM_STORE : gmap string Item.t;
  STORE_STORE : gmap string Store.t;
  RECEIPT_STORE : gmap string Receipt.t
}.

(** [executeDBTransaction(storeName, 'readwrite', callback)] for each of
    the three stores; [None] is a rejected promise and leaves the
    database as it was. *)
Definition onItems (rqs : list (request Item.t)) (db : Database) : option Database :=
  if available db then
    match commit Item.id rqs (ITEM_STORE db) with
    | Some m => Some (mkDatabase true m (STORE_STORE db) (RECEIPT_STORE db))
    | None => None
    end
  else None.

Definition onStores (rqs : list (request Store.t)) (db : Database) : option Database :=
  if available db then
    match commit Store.id rqs (STORE_STORE db) with
    | Some m => Some (mkDatabase true (ITEM_STORE db) m (RECEIPT_STORE db))
    | None => None
    end
  else None.

Definition onReceipts (rqs : list (request Receipt.t)) (db : Database) : option Database :=
  if available db then
    match commit Receipt.id rqs (RECEIPT_STORE db) with
    | Some m => Some (mkDatabase true (ITEM_STORE db) (STORE_STORE db) m)
    | None => None
    end
  else None.

End IDB.

Definition addItemDB (item : Item.t) := IDB.onItems [IDB.add item].
Definition updateItemDB (item : Item.t) := IDB.onItems [IDB.put item].
Definition deleteItemDB (itemId : string) := IDB.onItems [IDB.delete itemId].
Definition addReceiptDB (receipt : Receipt.t) := IDB.onReceipts [IDB.add receipt].

(** ** Application state *)

Inductive console : Type :=
| console_log (msg : string)
| console_warn (msg : string)
| console_error (msg : string).

Record AppState : Type := mkApp {
  db : IDB.Database;
  items : list Item.t;
  stores : list Store.t;
  receipts : list Receipt.t;
  filterStatus : string;
  searchTerm : string;
  sortCriteria : string
}.

Definition setItems (f : list Item.t -> list Item.t) (st : AppState) : AppState :=
  mkApp (db st) (f (items st)) (stores st) (receipts st)
        (filterStatus st) (searchTerm st) (sortCriteria st).
Definition setStores (f : list Store.t -> list Store.t) (st : AppState) : AppState :=
  mkApp (db st) (items st) (f (stores st)) (receipts st)
        (filterStatus st) (searchTerm st) (sortCriteria st).
Definition setReceipts (f : list Receipt.t -> list Receipt.t) (st : AppState) : AppState :=
  mkApp (db st) (items st) (stores st) (f (receipts st))
        (filterStatus st) (searchTerm st) (sortCriteria st).
Definition withDB (d : IDB.Database) (st : AppState) : AppState :=
  mkApp d (items st) (stores st) (receipts st)
        (filterStatus st) (searchTerm st) (sortCriteria st).

(** ** Handlers and derived values of the [App] component *)

Definition one : jsval := JNum (Fin 1).

(** [array.indexOf(x)]: the first position of [x], or -1. *)
Fixpoint indexOf_from (l : list string) (x : string) (i : Z) : Z :=
  match l with
  | [] => (-1)%Z
  | y :: l' => if String.eqb y x then i else indexOf_from l' x (i + 1)%Z
  end.
Definition indexOf (l : list string) (x : string) : Z := indexOf_from l x 0%Z.

(** [array[i]]: [None] (undefined) outside the array. *)
Definition at_index {A : Type} (l : list A) (i : Z) : option A :=
  if (i <? 0)%Z then None else l !! Z.to_nat i.

(** [Array.prototype.sort(compare)], a stable sort: an element moves behind
    another one only when [compare] is positive on them; a zero or NaN
    result keeps the two in their order. *)
Section ArraySort.
Context {A : Type} (compare : A -> A -> num).

Fixpoint sort_insert (x : A) (l : list A) : list A :=
  match l with
  | [] => [x]
  | y :: l' =>
      if num_gt (compare x y) (Fin 0) then y :: sort_insert x l'
      else x :: l
  end.

Fixpoint Array_sort (l : list A) : list A :=
  match l with
  | [] => []
  | x :: l' => sort_insert x (Array_sort l')
  end.
End ArraySort.

(** The object [getCheapestOption] returns. *)
Module Cheapest.
Record t : Type := mk { price : jsval; storeName : string }.
End Cheapest.

Section App.
Context {builtins : Builtins}.

(** *** Item CRUD *)

(** [(x.stores || []).filter(..).map(..)] of [handleCreateItem] and
    [handleUpdateItem]. *)
Definition sanitizeStores (raw : option (list StorePrice.t)) : list StorePrice.t :=
  map (fun s => StorePrice.mk (StorePrice.storeName s)
                              (JNum (ToNumber (StorePrice.price s))))
      (List.filter (fun s => truthy (JStr (StorePrice.storeName s))
                             && defined (StorePrice.price s))
                   (default [] raw)).

(** The record [itemToSave] that [handleUpdateItem] builds from the form
    data: the item normalisation of the specification. *)
Definition sanitizeItem (updatedItem : Item.t) : Item.t :=
  Item.mk (Item.id updatedItem)
          (Str.trim (Item.name updatedItem))
          (Item.category updatedItem)
          (Item.status updatedItem)
          (JNum (Math_max one (js_or (Item.quantity updatedItem) one)))
          (Item.barcode updatedItem)
          (Item.imageUrl updatedItem)
          (Some (sanitizeStores (Item.stores updatedItem))).

(** [uuid] is the value [crypto.randomUUID()] returns in this call. *)
Definition handleCreateItem (uuid : string) (itemData : Item.t) (st : AppState)
  : AppState * list console :=
  let sanitizedStores := sanitizeStores (Item.stores itemData) in
  let newItem :=
    Item.mk uuid
            (Str.trim (Item.name itemData))
            (Item.category itemData)
            (Item.status itemData)
            (JNum (Math_max one (js_or (Item.quantity itemData) one)))
            (Item.barcode itemData)
            (Item.imageUrl itemData)
            (Some sanitizedStores) in
  match addItemDB newItem (db st) with
  | Some d => (setItems (fun prev => prev ++ [newItem]) (withDB d st), [])
  | None => (st, [console_error "Failed to create item in DB:"])
  end.

Definition handleUpdateItem (updatedItem : Item.t) (st : AppState)
  : AppState * list console :=
  let itemToSave := sanitizeItem updatedItem in
  match updateItemDB itemToSave (db st) with
  | Some d =>
      (setItems (map (fun item =>
                        if String.eqb (Item.id item) (Item.id itemToSave)
                        then itemToSave else item))
                (withDB d st), [])
  | None => (st, [console_error "Failed to update item in DB:"])
  end.

Definition handleDeleteItem (itemId : string) (st : AppState)
  : AppState * list console :=
  match deleteItemDB itemId (db st) with
  | Some d =>
      (setItems (List.filter (fun item => negb (String.eqb (Item.id item) itemId)))
                (withDB d st), [])
  | None => (st, [console_error "Failed to delete item from DB:"])
  end.

Definition handleUpdateQuantity (itemId : string) (delta : num) (st : AppState)
  : AppState * list console :=
  let updatedItems :=
    map (fun item =>
           if String.eqb (Item.id item) itemId then
             let newQuantity := Math_max one (js_add (Item.quantity item) (JNum delta)) in
             Item.with_quantity (JNum newQuantity) item
           else item)
        (items st) in
  let itemToUpdate := find (fun i => String.eqb (Item.id i) itemId) updatedItems in
  match itemToUpdate with
  | Some it =>
      match updateItemDB it (db st) with
      | Some d => (setItems (fun _ => updatedItems) (withDB d st), [])
      | None => (st, [console_error "Failed to update quantity in DB:"])
      end
  | None => (st, [])
  end.

(** *** Status cycling *)

Definition nextIndex (status : string) : Z :=
  let currentIndex := indexOf STATUS_CYCLE status in
  Z.rem (currentIndex + 1) (Z.of_nat (length STATUS_CYCLE)).

(** [STATUS_CYCLE[nextIndex]]. *)
Definition newStatus (status : string) : option string :=
  at_index STATUS_CYCLE (nextIndex status).

(** [nextIndex] never leaves the array (see [newStatus_defined]), so the
    fallback of [default] below is never taken. *)
Definition handleCycleStatus (itemId : string) (st : AppState)
  : AppState * list console :=
  let updatedItems :=
    map (fun item =>
           if String.eqb (Item.id item) itemId then
             Item.with_status (default (Item.status item) (newStatus (Item.status item))) item
           else item)
        (items st) in
  let itemToUpdate := find (fun i => String.eqb (Item.id i) itemId) updatedItems in
  match itemToUpdate with
  | Some it =>
      match updateItemDB it (db st) with
      | Some d => (setItems (fun _ => updatedItems) (withDB d st), [])
      | None => (st, [console_error "Failed to cycle status in DB:"])
      end
  | None => (st, [])
  end.

(** *** Pricing resolver *)

Definition NA : Cheapest.t := Cheapest.mk JNull "N/A".

Definition getCheapestOption (item : Item.t) : Cheapest.t :=
  match Item.stores item with
  | None => NA
  | Some [] => NA
  | Some stores =>
      let validPrices :=
        List.filter (fun s => js_gt (StorePrice.price s) (JNum (Fin 0))) stores in
      match validPrices with
      | [] => NA
      | first :: _ =>
          let cheapest :=
            fold_left (fun min current =>
                         if js_lt (StorePrice.price current) (StorePrice.price min)
                         then current else min)
                      validPrices first in
          Cheapest.mk (StorePrice.price cheapest) (StorePrice.storeName cheapest)
      end
  end.

(** *** Filter, sort, aggregate *)

(** [if (x < y) return -1 * direction; if (x > y) return 1 * direction;
    return 0] on two strings. *)
Definition compareStrings (direction : num) (x y : string) : num :=
  if String.ltb x y then num_mul (Fin (-1)) direction
  else if String.ltb y x then num_mul (Fin 1) direction
  else Fin 0.

(** The literal [{ 'Depleted': 1, 'Running Low': 2, 'Home Stocked': 3 }]
    read at a status; any other status is not a rank. *)
Definition statusOrder (status : string) : jsval :=
  if String.eqb status "Depleted" then JNum (Fin 1)
  else if String.eqb status "Running Low" then JNum (Fin 2)
  else if String.eqb status "Home Stocked" then JNum (Fin 3)
  else JUndefined.

(** [(getCheapestOption(a).price || Infinity) * (a.quantity || 1)]. *)
Definition costKey (a : Item.t) : num :=
  js_mul (js_or (Cheapest.price (getCheapestOption a)) (JNum PosInf))
         (js_or (Item.quantity a) one).

(** The comparator handed to [sorted.sort]. *)
Definition compareItems (criteria : option string) (direction : num) (a b : Item.t) : num :=
  match criteria with
  | None => Fin 0
  | Some c =>
      if String.eqb c "name" then
        compareStrings direction (Str.toLowerCase (Item.name a)) (Str.toLowerCase (Item.name b))
      else if String.eqb c "category" then
        compareStrings direction (Str.toLowerCase (Item.category a))
                       (Str.toLowerCase (Item.category b))
      else if String.eqb c "status" then
        num_mul (num_sub (ToNumber (statusOrder (Item.status a)))
                         (ToNumber (statusOrder (Item.status b))))
                direction
      else if String.eqb c "cheapestPrice" then
        let aValue := costKey a in
        let bValue := costKey b in
        num_mul (num_sub aValue bValue) direction
      else if String.eqb c "store" then
        compareStrings direction
                       (Str.toLowerCase (Cheapest.storeName (getCheapestOption a)))
                       (Str.toLowerCase (Cheapest.storeName (getCheapestOption b)))
      else Fin 0
  end.

(** Step 1 of [filteredAndSortedItems]. *)
Definition searchFiltered (searchTerm : string) (items : list Item.t) : list Item.t :=
  let lowerCaseSearchTerm := Str.trim (Str.toLowerCase searchTerm) in
  if truthy (JStr lowerCaseSearchTerm) then
    List.filter (fun item => Str.includes (Str.toLowerCase (Item.name item))
                                          lowerCaseSearchTerm)
                items
  else items.

(** Step 2. *)
Definition statusFiltered (filterStatus : string) (filtered : list Item.t) : list Item.t :=
  if String.eqb filterStatus "Depleted" then
    List.filter (fun item => String.eqb (Item.status item) "Depleted") filtered
  else if String.eqb filterStatus "Running Low" then
    List.filter (fun item => String.eqb (Item.status item) "Running Low") filtered
  else if String.eqb filterStatus "Shopping Cart" then
    List.filter (fun item => String.eqb (Item.status item) "Depleted"
                             || String.eqb (Item.status item) "Running Low") filtered
  else filtered.

(** Step 3: [sortCriteria.split('-')] gives the criterion and the
    direction. *)
Definition sorted (sortCriteria : string) (filtered : list Item.t) : list Item.t :=
  let pieces := Str.split "-" sortCriteria in
  let criteria := pieces !! 0%nat in
  let directionStr := pieces !! 1%nat in
  let direction :=
    match directionStr with
    | Some d => if String.eqb d "asc" then Fin 1 else Fin (-1)
    | None => Fin (-1)
    end in
  Array_sort (compareItems criteria direction) filtered.

Definition filteredAndSortedItems (st : AppState) : list Item.t :=
  sorted (sortCriteria st)
         (statusFiltered (filterStatus st)
                         (searchFiltered (searchTerm st) (items st))).

Definition totalVisibleItemCount (st : AppState) : nat :=
  length (filteredAndSortedItems st).

Definition totalEstimatedCost (st : AppState) : num :=
  fold_left (fun total item =>
               let cheapest := getCheapestOption item in
               num_add total (js_mul (js_or (Cheapest.price cheapest) (JNum (Fin 0)))
                                     (js_or (Item.quantity item) one)))
            (filteredAndSortedItems st) (Fin 0).

(** *** Receipts *)

(** [uuid] is the fresh id and [now] the ISO time stamp of this call. *)
Definition handleLogReceipt (uuid now : string) (st : AppState)
  : AppState * list console :=
  if (totalVisibleItemCount st =? 0)%nat then
    (st, [console_warn "Cannot log receipt: No visible items."])
  else
    let receipt :=
      Receipt.mk uuid now
        (filterStatus st ++
           (if truthy (JStr (searchTerm st))
            then " (Search: " ++ searchTerm st ++ ")" else ""))
        (JNum (totalEstimatedCost st))
        (length (filteredAndSortedItems st))
        (map (fun item =>
                let cheapest := getCheapestOption item in
                Line.mk (Item.id item) (Item.name item) (Item.quantity item)
                        (Cheapest.price cheapest) (Cheapest.storeName cheapest)
                        (Item.status item))
             (filteredAndSortedItems st)) in
    match addReceiptDB receipt (db st) with
    | Some d =>
        (setReceipts (fun prev => receipt :: prev) (withDB d st),
         [console_log "Receipt logged successfully to IndexedDB."])
    | None => (st, [console_error "Failed to log receipt to DB:"])
    end.

(** *** Import and export *)


End App.

(** The parsed content of an export file, seen through the keys the import
    reads.  A key is [None] when it is absent or does not hold an array. *)
Module Document.
Record t : Type := mk {
  items : option (list Item.t);
  stores : option (list Store.t);
  receipts : option (list Receipt.t);
  timestamp : jsval
}.
End Document.

(** [JSON.parse(JSON.stringify(x))] on the records of the data model: a
    non-finite number is written as [null]; an undefined property is left
    out and reads as undefined again; strings and finite numbers are kept. *)
Module JSON.
Definition val (v : jsval) : jsval :=
  match v with
  | JNum (Fin q) => JNum (Fin q)
  | JNum _ => JNull
  | _ => v
  end.

Definition storePrice (s : StorePrice.t) : StorePrice.t :=
  StorePrice.mk (StorePrice.storeName s) (val (StorePrice.price s)).

Definition item (i : Item.t) : Item.t :=
  Item.mk (Item.id i) (Item.name i) (Item.category i) (Item.status i)
          (val (Item.quantity i)) (Item.barcode i) (Item.imageUrl i)
          (option_map (map storePrice) (Item.stores i)).

Definition line (l : Line.t) : Line.t :=
  Line.mk (Line.id l) (Line.name l) (val (Line.quantity l))
          (val (Line.cheapestPrice l)) (Line.cheapestStore l) (Line.status l).

Definition receipt (r : Receipt.t) : Receipt.t :=
  Receipt.mk (Receipt.id r) (Receipt.timestamp r) (Receipt.filterUsed r)
             (val (Receipt.estimatedTotal r)) (Receipt.itemCount r)
             (map line (Receipt.items r)).

(** What [JSON.parse] returns on a text, when it returns. *)
Inductive parsed : Type :=
| NotAnObject                 (* null, a number, a string, a boolean, an array *)
| Object (d : Document.t).
End JSON.

(** What the file reader hands to [reader.onload]. *)
Inductive ReaderResult : Type :=
| NotAString
| Text (parse : option JSON.parsed).   (* [None]: [JSON.parse] throws *)

Inductive ImportEvent : Type :=
| NoFile
| ReaderError
| ReaderLoad (result : ReaderResult).

(** The body of a [try] block that awaits transactions: it runs on the
    database and either completes or throws. *)
Module Try.
Definition t (A : Type) : Type := IDB.Database -> IDB.Database * option A.

Definition ret {A} (a : A) : t A := fun d => (d, Some a).
Definition throw {A} : t A := fun d => (d, None).
Definition bind {A B} (m : t A) (k : A -> t B) : t B :=
  fun d => match m d with
           | (d', Some a) => k a d'
           | (d', None) => (d', None)
           end.
(** [await promise]: a rejected promise throws and leaves the database. *)
Definition await (tx : IDB.Database -> option IDB.Database) : t unit :=
  fun d => match tx d with
           | Some d' => (d', Some tt)
           | None => (d, None)
           end.
End Try.

Notation "'await' tx ';;' k" := (Try.bind (Try.await tx) (fun _ => k))
  (at level 10, tx at level 9, k at level 200).

Section Codec.
Context {builtins : Builtins}.


(** [importedData.items.map(item => ({ ...item, quantity: .. }))]. *)
Definition importItem (item : Item.t) : Item.t :=
  Item.with_quantity (JNum (Math_max one (js_or (Item.quantity item) one))) item.

(** The checks before any write: they throw unless the content is text
    that parses to an object with an [items] and a [stores] array. *)
Definition validate (result : ReaderResult)
  : option (list Item.t * list Store.t * option (list Receipt.t)) :=
  match result with
  | NotAString => None
  | Text None => None
  | Text (Some JSON.NotAnObject) => None
  | Text (Some (JSON.Object importedData)) =>
      match Document.items importedData, Document.stores importedData with
      | Some its, Some sts => Some (its, sts, Document.receipts importedData)
      | _, _ => None
      end
  end.

(** The [try] block of [reader.onload]. *)
Definition importBody (result : ReaderResult)
  : Try.t (list Item.t * list Store.t * list Receipt.t) :=
  match validate result with
  | None => Try.throw
  | Some (its, sts, rcs) =>
      let sanitizedItems := map importItem its in
      let sanitizedStores := firstn MAX_REUSABLE_STORES sts in
      let sanitizedReceipts := default [] rcs in
      await (IDB.onItems (IDB.clear :: map IDB.add sanitizedItems)) ;;
      await (IDB.onStores (IDB.clear :: map IDB.add sanitizedStores)) ;;
      await (IDB.onReceipts (IDB.clear :: map IDB.add sanitizedReceipts)) ;;
      Try.ret (sanitizedItems, sanitizedStores, sanitizedReceipts)
  end.

Definition handleImportData (event : ImportEvent) (st : AppState)
  : AppState * list console :=
  match event with
  | NoFile => (st, [])
  | ReaderError => (st, [console_error "FileReader failed to read file."])
  | ReaderLoad result =>
      match importBody result (db st) with
      | (d, Some (sanitizedItems, sanitizedStores, sanitizedReceipts)) =>
          (setReceipts (fun _ => sanitizedReceipts)
             (setStores (fun _ => sanitizedStores)
                (setItems (fun _ => sanitizedItems) (withDB d st))),
           [console_log "Data imported successfully! Items: %d, Stores: %d, Receipts: %d"])
      | (d, None) => (withDB d st, [console_error "Error importing data:"])
      end
  end.

End Codec.

(** A concrete pair of conversions, for evaluating the definitions on
    examples: decimal literals are read, integers are printed (of another
    finite number, its integer quotient). *)
Definition decimalNumberToString (n : num) : string :=
  match n with
  | NaN => "NaN"
  | PosInf => "Infinity"
  | NegInf => "-Infinity"
  | Fin q => pretty.pretty (Qnum q / Z.pos (Qden q))%Z
  end.

Definition decimalBuiltins : Builtins :=
  {| StringToNumber := decimalStringToNumber;
     NumberToString := decimalNumberToString |}.

(** ** Further handlers of the component *)

Definition MAX_STORES_PER_ITEM : nat := 10.

Definition addStoreDB (store : Store.t) := IDB.onStores [IDB.add store].
Definition deleteStoreDB (storeId : string) := IDB.onStores [IDB.delete storeId].
Definition deleteReceiptDB (receiptId : string) := IDB.onReceipts [IDB.delete receiptId].

Definition setFilterStatus (s : string) (st : AppState) : AppState :=
  mkApp (db st) (items st) (stores st) (receipts st)
        s (searchTerm st) (sortCriteria st).
Definition setSortCriteria (s : string) (st : AppState) : AppState :=
  mkApp (db st) (items st) (stores st) (receipts st)
        (filterStatus st) (searchTerm st) s.

(** [s.substring(n)]. *)
Fixpoint substring_from (n : nat) (s : string) : string :=
  match n, s with
  | O, _ => s
  | S n', String _ s' => substring_from n' s'
  | S _, EmptyString => EmptyString
  end.

(** [array.filter((_, i) => i !== index)], counting positions from [i]. *)
Fixpoint filter_other_index {A : Type} (index i : nat) (l : list A) : list A :=
  match l with
  | [] => []
  | x :: l' =>
      if Nat.eqb i index then filter_other_index index (S i) l'
      else x :: filter_other_index index (S i) l'
  end.

(** *** Store CRUD *)

(** [newStoreName] is the state of the input field; it is returned next
    to the application state.  [uuid] is the id drawn in this call. *)
Definition handleAddStore (uuid : string) (newStoreName : string) (st : AppState)
  : AppState * string * list console :=
  if (MAX_REUSABLE_STORES <=? length (stores st))%nat then (st, newStoreName, [])
  else if negb (truthy (JStr (Str.trim newStoreName))) then (st, newStoreName, [])
  else
    let newStore := Store.mk uuid (Str.trim newStoreName) in
    match addStoreDB newStore (db st) with
    | Some d => (setStores (fun prev => prev ++ [newStore]) (withDB d st), "", [])
    | None => (st, newStoreName, [console_error "Failed to add store to DB:"])
    end.

Definition handleDeleteStore (storeId : string) (st : AppState)
  : AppState * list console :=
  match deleteStoreDB storeId (db st) with
  | Some d =>
      (setStores (List.filter (fun store => negb (String.eqb (Store.id store) storeId)))
                 (withDB d st), [])
  | None => (st, [console_error "Failed to delete store from DB:"])
  end.

(** [isConfirmed] is the answer of [window.confirm]. *)
Definition handleDeleteReceipt (isConfirmed : bool) (receiptId : string) (st : AppState)
  : AppState * list console :=
  if negb isConfirmed then (st, [])
  else
    match deleteReceiptDB receiptId (db st) with
    | Some d =>
        (setReceipts (List.filter (fun r => negb (String.eqb (Receipt.id r) receiptId)))
                     (withDB d st),
         [console_log ("Receipt " ++ receiptId ++ " deleted successfully.")])
    | None => (st, [console_error "Failed to delete receipt from DB:"])
    end.

(** *** The combined filter and sort selector *)

Definition selectedValue (st : AppState) : string :=
  if String.eqb (filterStatus st) "Depleted" then "filter-depleted"
  else if String.eqb (filterStatus st) "Running Low" then "filter-runninglow"
  else if String.eqb (filterStatus st) "Shopping Cart" then "filter-shoppingcart"
  else "sort-" ++ sortCriteria st.

Definition handleCombinedChange (value : string) (st : AppState) : AppState :=
  if Str.startsWith value "filter-" then
    let statusSuffix := substring_from 7 value in
    if String.eqb statusSuffix "all" then setFilterStatus "All" st
    else if String.eqb statusSuffix "depleted" then setFilterStatus "Depleted" st
    else if String.eqb statusSuffix "runninglow" then setFilterStatus "Running Low" st
    else if String.eqb statusSuffix "shoppingcart" then setFilterStatus "Shopping Cart" st
    else st
  else if Str.startsWith value "sort-" then
    let criteria := substring_from 5 value in
    setFilterStatus "All" (setSortCriteria criteria st)
  else st.

(** *** The item form *)

(** [{ ...item, stores: rows }]. *)
Definition with_stores (rows : list StorePrice.t) (i : Item.t) : Item.t :=
  Item.mk (Item.id i) (Item.name i) (Item.category i) (Item.status i)
          (Item.quantity i) (Item.barcode i) (Item.imageUrl i) (Some rows).

(** The three row handlers of [StorePriceEditor], on the item being
    edited.  [None]: the item has no [stores] array, and reading its
    length or spreading it throws. *)
Definition handleAddStorePrice (item : Item.t) : option Item.t :=
  match Item.stores item with
  | None => None
  | Some rows =>
      if (MAX_STORES_PER_ITEM <=? length rows)%nat then Some item
      else Some (with_stores (rows ++ [StorePrice.mk "" (JStr "")]) item)
  end.

Definition handleRemoveStorePrice (index : nat) (prev : Item.t) : option Item.t :=
  match Item.stores prev with
  | None => None
  | Some rows => Some (with_stores (filter_other_index index 0 rows) prev)
  end.

(** The field a row input changes. *)
Inductive RowKey : Type := storeNameKey | priceKey.

(** [handleUpdateStorePrice(index, key, value)] for a row that exists, as
    the row inputs call it.  (Past the end the assignment would leave
    holes in the array, which the row type does not hold; [None] there as
    well.) *)
Definition handleUpdateStorePrice (index : nat) (key : RowKey) (value : string)
           (prev : Item.t) : option Item.t :=
  match Item.stores prev with
  | None => None
  | Some newStores =>
      match newStores !! index with
      | None => None
      | Some row =>
          let row' :=
            match key with
            | storeNameKey => StorePrice.mk value (StorePrice.price row)
            | priceKey => StorePrice.mk (StorePrice.storeName row) (JStr value)
            end in
          Some (with_stores (<[index := row']> newStores) prev)
      end
  end.

(** [getAvailableStoreOptions(currentIndex, allStores, currentStores)]. *)
Definition getAvailableStoreOptions (currentIndex : nat) (allStores : list Store.t)
           (currentStores : list StorePrice.t) : list Store.t :=
  let usedNames : gset string :=
    list_to_set
      (List.filter (fun name => truthy (JStr name))
                   (map StorePrice.storeName
                        (filter_other_index currentIndex 0 currentStores))) in
  List.filter (fun s => negb (bool_decide (Store.name s ∈ usedNames))) allStores.

(** The built-ins of the host that the form and the receipt list call:
    [parseInt(text)], [parseInt(text, 10)] and, for a time stamp [t], the
    value, the year and the month of [new Date(t)]. *)
Class HostBuiltins : Type := {
  parseInt : string -> num;
  parseInt10 : string -> num;
  dateValue : string -> num;
  getFullYear : string -> num;
  getMonth : string -> num
}.

Section Form.
Context {builtins : Builtins} {host : HostBuiltins}.

(** [text] is [e.target.value]. *)
Definition handleQuantityChange (text : string) (localItem : Item.t) : Item.t :=
  let value := js_or (JNum (parseInt text)) one in
  Item.with_quantity (JNum (Math_max one value)) localItem.

(** [handleCreate] of [AddItemModal], with [onCreate] bound to
    [handleCreateItem]. *)
Definition AddItemModal_handleCreate (uuid : string) (localItem : Item.t) (st : AppState)
  : AppState * list console :=
  if negb (truthy (JStr (Str.trim (Item.name localItem)))) then (st, [])
  else handleCreateItem uuid localItem st.

(** *** The receipt list *)

(** [new Date(b.timestamp) - new Date(a.timestamp)]. *)
Definition newestFirst (a b : Receipt.t) : num :=
  num_sub (dateValue (Receipt.timestamp b)) (dateValue (Receipt.timestamp a)).

(** [x === y] on numbers. *)
Definition strict_equal (x y : num) : bool :=
  match x, y with
  | Fin a, Fin b => Qeq_bool a b
  | PosInf, PosInf | NegInf, NegInf => true
  | _, _ => false
  end.

Definition filteredAndSortedReceipts (receipts : list Receipt.t)
           (selectedYear selectedMonth : string) : list Receipt.t :=
  let list := Array_sort newestFirst receipts in
  let list :=
    if negb (String.eqb selectedYear "all") then
      List.filter (fun receipt =>
                     strict_equal (getFullYear (Receipt.timestamp receipt))
                                  (parseInt10 selectedYear))
                  list
    else list in
  let list :=
    if negb (String.eqb selectedMonth "all") then
      List.filter (fun receipt =>
                     strict_equal (getMonth (Receipt.timestamp receipt))
                                  (num_sub (parseInt10 selectedMonth) (Fin 1)))
                  list
    else list in
  list.

End Form.

(** ** Sample data *)

Module Sample.
Definition emptyDB : IDB.Database := IDB.mkDatabase true ∅ ∅ ∅.
Definition emptyApp : AppState := mkApp emptyDB [] [] [] "All" "" "name-asc".

Definition row (storeName : string) (price : Q) : StorePrice.t :=
  StorePrice.mk storeName (JNum (Fin price)).

Definition milk : Item.t :=
  Item.mk "i-1" "Milk" "Dairy" "Depleted" (JNum (Fin 2)) "" ""
          (Some [row "A" 3.50; row "B" 2.00; row "C" 2.00]).
Definition bread : Item.t :=
  Item.mk "i-2" "Bread" "Pantry" "Home Stocked" (JNum (Fin 1)) "" "" (Some []).
Definition eggs : Item.t :=
  Item.mk "i-3" "Eggs" "Dairy" "Running Low" (JNum (Fin 4)) "" ""
          (Some [row "B" 1.00]).
Definition salt : Item.t :=
  Item.mk "i-4" "Salt" "Pantry" "Home Stocked" (JNum (Fin 3)) "" "" None.

Definition pantryDB : IDB.Database :=
  IDB.mkDatabase true (<["i-1" := milk]> (<["i-2" := bread]> ∅)) ∅ ∅.
Definition pantry : AppState :=
  mkApp pantryDB [milk; bread] [] [] "All" "" "name-asc".

(** An export file edited by hand: a padded name, a row without a store
    name, a price written as text. *)
Definition rawMilk : Item.t :=
  Item.mk "i-9" "  Milk " "Dairy" "Depleted" (JNum (Fin 0)) "" ""
          (Some [StorePrice.mk "" (JNum (Fin 1)); StorePrice.mk "A" (JStr "2.50")]).
Definition rawDocument : Document.t :=
  Document.mk (Some [rawMilk]) (Some [Store.mk "s-1" "A"]) None JUndefined.

Definition noStores : Document.t :=
  Document.mk (Some [milk]) None (Some []) (JStr "2025-01-01T00:00:00.000Z").

(** A file that lists two items under one id. *)
Definition twins : Document.t :=
  Document.mk (Some [eggs; Item.with_status "Depleted" eggs]) (Some []) None JUndefined.

(** An item as a hand-edited file can bring it in: prices written as text. *)
Definition textPrices : Item.t :=
  Item.mk "i-5" "Rice" "Pantry" "Depleted" (JNum (Fin 1)) "" ""
          (Some [StorePrice.mk "A" (JStr "10"); StorePrice.mk "B" (JStr "9");
                 StorePrice.mk "C" (JNum (Fin 9.5))]).
End Sample.

(** ** Predicates used in the statements *)

(** Two items that differ at most in their quantity. *)
Definition sameButQuantity (a b : Item.t) : Prop :=
  Item.id a = Item.id b /\ Item.name a = Item.name b
  /\ Item.category a = Item.category b /\ Item.status a = Item.status b
  /\ Item.barcode a = Item.barcode b /\ Item.imageUrl a = Item.imageUrl b
  /\ Item.stores a = Item.stores b.

(** The import inputs of the specification that do not validate. *)
Inductive rejected : ReaderResult -> Prop :=
| rejected_not_text : rejected NotAString
| rejected_syntax : rejected (Text None)
| rejected_not_object : rejected (Text (Some JSON.NotAnObject))
| rejected_no_items (d : Document.t) :
    Document.items d = None -> rejected (Text (Some (JSON.Object d)))
| rejected_no_stores (d : Document.t) :
    Document.stores d = None -> rejected (Text (Some (JSON.Object d))).





(** A string of white space only. *)
Fixpoint blank (s : string) : Prop :=
  match s with
  | EmptyString => True
  | String c s' => Str.is_space c = true /\ blank s'
  end.

(** A stored quantity of the data model: an integer, at least 1 (held
    as the fraction z/1, the form in which the handlers produce it). *)
Definition wholeQuantity (v : jsval) : Prop :=
  exists z : Z, (1 <= z)%Z /\ v = JNum (of_Z z).

(** A quantity as the item form hands it over: an integer of either sign,
    or no number at all. *)
Definition integralInput (v : jsval) : Prop :=
  v = JUndefined \/ v = JNull \/ v = JNum NaN \/ exists z : Z, v = JNum (of_Z z).

(** The item writes of the user interface.  A quantity button passes the
    delta 1 or -1. *)
Inductive WriteOp : Type :=
| OpCreate (uuid : string) (itemData : Item.t)
| OpEdit (updatedItem : Item.t)
| OpDelta (itemId : string) (up : bool)
| OpCycle (itemId : string)
| OpDelete (itemId : string).

Definition perform {builtins : Builtins} (op : WriteOp) (st : AppState) : AppState :=
  fst match op with
      | OpCreate uuid itemData => handleCreateItem uuid itemData st
      | OpEdit updatedItem => handleUpdateItem updatedItem st
      | OpDelta itemId up =>
          handleUpdateQuantity itemId (if up then Fin 1 else Fin (-1)) st
      | OpCycle itemId => handleCycleStatus itemId st
      | OpDelete itemId => handleDeleteItem itemId st
      end.

Definition run {builtins : Builtins} (ops : list WriteOp) (st : AppState) : AppState :=
  fold_left (fun s op => perform op s) ops st.



(** Store rows whose prices are finite numbers. *)
Definition decimalPrices (item : Item.t) : Prop :=
  forall rows, Item.stores item = Some rows ->
               Forall (fun s => exists p : Q, StorePrice.price s = JNum (Fin p)) rows.

(** An item of the data model: an integer quantity of at least 1 and
    decimal prices. *)
Definition modelItem (item : Item.t) : Prop :=
  wholeQuantity (Item.quantity item) /\ decimalPrices item.



(** The object store that holds exactly the records of a list, each under
    its key. *)
Definition keyed {R : Type} (keyPath : R -> string) (l : list R) : gmap string R :=
  list_to_map ((fun r => (keyPath r, r)) <$> l).

(** A value [JSON.stringify] writes as it is: anything but NaN and the
    infinities. *)
Definition finiteOrAbsent (v : jsval) : Prop :=
  match v with
  | JNum (Fin _) => True
  | JNum _ => False
  | _ => True
  end.

Definition plainReceipt (r : Receipt.t) : Prop :=
  finiteOrAbsent (Receipt.estimatedTotal r)
  /\ Forall (fun ln => finiteOrAbsent (Line.quantity ln)
                       /\ finiteOrAbsent (Line.cheapestPrice ln))
            (Receipt.items r).

(** A state of the data model: the database can be opened, ids are unique
    within each collection, the items are model items, there are at most
    50 stores, and the receipts hold finite numbers. *)
Definition modelState (st : AppState) : Prop :=
  IDB.available (db st) = true
  /\ NoDup (map Item.id (items st))
  /\ NoDup (map Store.id (stores st))
  /\ NoDup (map Receipt.id (receipts st))
  /\ Forall modelItem (items st)
  /\ (length (stores st) <= MAX_REUSABLE_STORES)%nat
  /\ Forall plainReceipt (receipts st).


(** The cost comparator in ascending direction, by a numeric key, and the
    order it sorts into. *)
Definition byKey {A : Type} (key : A -> num) (a b : A) : num :=
  num_mul (num_sub (key a) (key b)) (Fin 1).
Definition notAbove {A : Type} (key : A -> num) (x y : A) : Prop :=
  num_lt (key y) (key x) = false.

(** ** Predicates of the further properties *)

(** The item store holds exactly the listed items, each once. *)
Definition synced (st : AppState) : Prop :=
  IDB.ITEM_STORE (db st) = keyed Item.id (items st)
  /\ NoDup (map Item.id (items st)).

(** An edit in the sequence always saves an item that is listed when its
    turn comes. *)
Fixpoint editsListed {builtins : Builtins} (ops : list WriteOp) (st : AppState) : Prop :=
  match ops with
  | [] => True
  | op :: rest =>
      match op with
      | OpEdit updatedItem => In (Item.id updatedItem) (map Item.id (items st))
      | _ => True
      end
      /\ editsListed rest (perform op st)
  end.

(** A string that neither starts nor ends with white space. *)
Definition trimmed (s : string) : Prop := Str.trim s = s.

(** A string that does not start with white space. *)
Definition headOK (s : string) : Prop :=
  match s with
  | EmptyString => True
  | String c _ => Str.is_space c = false
  end.

(** More sample data: a state with two stores and a logged receipt. *)
Module Fixture.
Definition aldi : Store.t := Store.mk "s-1" "A".
Definition bio : Store.t := Store.mk "s-2" "B".
Definition slip : Receipt.t :=
  Receipt.mk "r-1" "2025-01-01T00:00:00.000Z" "All" (JNum (Fin 4)) 1
             [Line.mk "i-1" "Milk" (JNum (Fin 2)) (JNum (Fin 2.00)) "B" "Depleted"].
Definition shopDB : IDB.Database :=
  IDB.mkDatabase true
                 (<["i-1" := Sample.milk]> (<["i-2" := Sample.bread]> ∅))
                 (<["s-1" := aldi]> (<["s-2" := bio]> ∅))
                 (<["r-1" := slip]> ∅).
Definition shop : AppState :=
  mkApp shopDB [Sample.milk; Sample.bread] [aldi; bio] [slip] "All" "" "name-asc".
Definition offline : AppState :=
  mkApp (IDB.mkDatabase false ∅ ∅ ∅) [Sample.milk] [aldi] [] "All" "" "name-asc".
End Fixture.

(** Two states that differ at most in their items, in memory and in the
    item store. *)
Definition sameOutsideItems (a b : AppState) : Prop :=
  stores a = stores b /\ receipts a = receipts b
  /\ IDB.STORE_STORE (db a) = IDB.STORE_STORE (db b)
  /\ IDB.RECEIPT_STORE (db a) = IDB.RECEIPT_STORE (db b)
  /\ filterStatus a = filterStatus b /\ searchTerm a = searchTerm b
  /\ sortCriteria a = sortCriteria b.

(** The comparator does not put [x] behind [y]. *)
Definition inOrder {A : Type} (compare : A -> A -> num) (x y : A) : Prop :=
  num_gt (compare x y) (Fin 0) = false.

(** The sort criteria that compare text, each with the text it compares. *)
Definition textKeys {builtins : Builtins} : list (string * (Item.t -> string)) :=
  [("name", fun a => Str.toLowerCase (Item.name a));
   ("category", fun a => Str.toLowerCase (Item.category a));
   ("store", fun a => Str.toLowerCase (Cheapest.storeName (getCheapestOption a)))].

(** The rank the status sort compares, and the items that have one. *)
Definition statusRank {builtins : Builtins} (a : Item.t) : num :=
  ToNumber (statusOrder (Item.status a)).
Definition recognised (a : Item.t) : Prop := In (Item.status a) STATUS_CYCLE.

(** The view that hides nothing. *)
Definition showsAll (st : AppState) : Prop :=
  blank (searchTerm st)
  /\ filterStatus st <> "Depleted" /\ filterStatus st <> "Running Low"
  /\ filterStatus st <> "Shopping Cart".

(** A receipt line is the snapshot of an item. *)
Definition snapshotOf {builtins : Builtins} (ln : Line.t) (item : Item.t) : Prop :=
  Line.id ln = Item.id item /\ Line.name ln = Item.name item
  /\ Line.quantity ln = Item.quantity item /\ Line.status ln = Item.status item
  /\ Line.cheapestPrice ln = Cheapest.price (getCheapestOption item)
  /\ Line.cheapestStore ln = Cheapest.storeName (getCheapestOption item).

(** A concrete host for evaluating the definitions on examples:
    [parseInt] reads the leading decimal digits of a string, after white
    space and a sign, and the clock reads the digits of an ISO time stamp,
    year first, which orders such stamps by time. *)
Definition leadingInt (s : string) : num :=
  let unsigned t :=
    match t with
    | EmptyString => NaN
    | String c _ =>
        match digit c with
        | None => NaN
        | Some _ => match digits t 0%Z with Some (i, _) => of_Z i | None => NaN end
        end
    end in
  match Str.trimStart s with
  | String "-" t => num_neg (unsigned t)
  | String "+" t => unsigned t
  | t => unsigned t
  end.

Fixpoint onlyDigits (s : string) : string :=
  match s with
  | EmptyString => EmptyString
  | String c s' =>
      match digit c with
      | Some _ => String c (onlyDigits s')
      | None => onlyDigits s'
      end
  end.

Definition exampleHost : HostBuiltins :=
  {| parseInt := leadingInt;
     parseInt10 := leadingInt;
     dateValue := fun t => leadingInt (onlyDigits t);
     getFullYear := fun t => leadingInt (String.substring 0 4 t);
     getMonth := fun t => num_sub (leadingInt (String.substring 5 2 t)) (Fin 1) |}.

(** * Properties *)

(** ** Lists and stores *)

Lemma lookup_map {A B : Type} (f : A -> B) (l : list A) (k : nat) :
  map f l !! k = f <$> (l !! k).
Proof.
  revert k; induction l as [|x l IH]; intros [|k]; simpl; auto.
Qed.

Lemma find_map_same {A : Type} (p : A -> bool) (f : A -> A) (l : list A) :
  (forall x, p (f x) = p x) ->
  find p (map f l) = f <$> find p l.
Proof.
  intros Hp; induction l as [|x l IH]; simpl; [reflexivity|].
  rewrite Hp. destruct (p x); simpl; auto.
Qed.

Lemma find_first_lookup {A : Type} (p : A -> bool) (l : list A) :
  find p l = None -> forall k x, l !! k = Some x -> p x = false.
Proof.
  induction l as [|y l IH]; intros Hf k x Hk; [destruct k; discriminate|].
  simpl in Hf. destruct (p y) eqn:Hy; [discriminate|].
  destruct k as [|k]; simpl in Hk; [inversion Hk; subst; auto|eauto].
Qed.

Lemma withDB_same (st : AppState) : withDB (db st) st = st.
Proof. destruct st; reflexivity. Qed.

Lemma updateItemDB_available (it : Item.t) (d : IDB.Database) :
  IDB.available d = true ->
  updateItemDB it d
  = Some (IDB.mkDatabase true (<[Item.id it := it]> (IDB.ITEM_STORE d))
                         (IDB.STORE_STORE d) (IDB.RECEIPT_STORE d)).
Proof. intros H; unfold updateItemDB, IDB.onItems; rewrite H; reflexivity. Qed.

Lemma updateItemDB_inv (it : Item.t) (d d' : IDB.Database) :
  updateItemDB it d = Some d' ->
  d' = IDB.mkDatabase true (<[Item.id it := it]> (IDB.ITEM_STORE d))
                      (IDB.STORE_STORE d) (IDB.RECEIPT_STORE d).
Proof.
  unfold updateItemDB, IDB.onItems.
  destruct (IDB.available d); simpl; congruence.
Qed.

(** ** Status cycle *)

Lemma newStatus_cases (s : string) :
  (s = "Depleted" /\ newStatus s = Some "Running Low") \/
  (s = "Running Low" /\ newStatus s = Some "Home Stocked") \/
  (s = "Home Stocked" /\ newStatus s = Some "Depleted") \/
  (~ In s STATUS_CYCLE /\ indexOf STATUS_CYCLE s = (-1)%Z /\ nextIndex s = 0%Z
   /\ newStatus s = Some "Depleted").
Proof.
  unfold newStatus, nextIndex, indexOf, STATUS_CYCLE; cbn [indexOf_from].
  destruct (String.eqb_spec "Depleted" s) as [<-|H1];
    [left; split; reflexivity|].
  destruct (String.eqb_spec "Running Low" s) as [<-|H2];
    [right; left; split; reflexivity|].
  destruct (String.eqb_spec "Home Stocked" s) as [<-|H3];
    [right; right; left; split; reflexivity|].
  right; right; right. repeat split; try reflexivity.
  intros [?|[?|[?|[]]]]; congruence.
Qed.

Lemma newStatus_defined (s : string) : exists s', newStatus s = Some s'.
Proof.
  destruct (newStatus_cases s) as [[_ H]|[[_ H]|[[_ H]|(_ & _ & _ & H)]]]; eauto.
Qed.

(** C9.  Cycling a status follows Depleted -> Running Low -> Home Stocked ->
    Depleted; a status outside the cycle has index -1, so its successor is
    index 0, Depleted.  When the database accepts the write,
    [handleCycleStatus] puts that successor on every listed item with the
    given id, leaves the other items as they are, and stores the updated
    record under the id. *)
Theorem cycle_status_advances (st : AppState) (itemId : string) :
  IDB.available (db st) = true ->
  (newStatus "Depleted" = Some "Running Low"
   /\ newStatus "Running Low" = Some "Home Stocked"
   /\ newStatus "Home Stocked" = Some "Depleted")
  /\ (forall s, ~ In s STATUS_CYCLE ->
        indexOf STATUS_CYCLE s = (-1)%Z /\ nextIndex s = 0%Z
        /\ newStatus s = Some "Depleted")
  /\ (forall k item, items st !! k = Some item -> Item.id item = itemId ->
        exists s', newStatus (Item.status item) = Some s'
                   /\ items (fst (handleCycleStatus itemId st)) !! k
                      = Some (Item.with_status s' item))
  /\ (forall k item, items st !! k = Some item -> Item.id item <> itemId ->
        items (fst (handleCycleStatus itemId st)) !! k = Some item)
  /\ (forall first,
        find (fun i => String.eqb (Item.id i) itemId) (items st) = Some first ->
        exists s', newStatus (Item.status first) = Some s'
                   /\ IDB.ITEM_STORE (db (fst (handleCycleStatus itemId st))) !! itemId
                      = Some (Item.with_status s' first)).
Proof.
  intros Hav. split; [repeat split; reflexivity|].
  split.
  { intros s Hs.
    destruct (newStatus_cases s) as [[-> _]|[[-> _]|[[-> _]|(_ & ? & ? & ?)]]];
      auto; exfalso; apply Hs; simpl; auto. }
  unfold handleCycleStatus.
  set (f := fun item : Item.t =>
              if String.eqb (Item.id item) itemId
              then Item.with_status
                     (default (Item.status item) (newStatus (Item.status item))) item
              else item).
  assert (Hid : forall x, String.eqb (Item.id (f x)) itemId = String.eqb (Item.id x) itemId).
  { intros x; unfold f. destruct (String.eqb (Item.id x) itemId) eqn:E; simpl; auto. }
  rewrite (find_map_same _ f _ Hid).
  destruct (find _ (items st)) as [first|] eqn:Hfind; simpl.
  - rewrite (updateItemDB_available _ _ Hav); simpl.
    assert (Hfirst : Item.id first = itemId).
    { apply find_some in Hfind as [_ H]. now apply String.eqb_eq. }
    repeat split.
    + intros k item Hk Hi. destruct (newStatus_defined (Item.status item)) as [s' Hs'].
      exists s'; split; auto. rewrite lookup_map, Hk; simpl. unfold f.
      apply String.eqb_eq in Hi. rewrite Hi, Hs'. reflexivity.
    + intros k item Hk Hi. rewrite lookup_map, Hk; simpl. unfold f.
      apply String.eqb_neq in Hi. rewrite Hi. reflexivity.
    + intros first' [= <-]. destruct (newStatus_defined (Item.status first)) as [s' Hs'].
      exists s'; split; auto.
      assert (Hf : f first = Item.with_status s' first).
      { unfold f. apply String.eqb_eq in Hfirst. rewrite Hfirst, Hs'. reflexivity. }
      rewrite Hf; simpl. rewrite Hfirst. apply lookup_insert_eq.
  - repeat split.
    + intros k item Hk Hi.
      pose proof (find_first_lookup _ _ Hfind k item Hk) as Hno.
      apply String.eqb_eq in Hi. congruence.
    + intros k item Hk _. exact Hk.
    + intros first [=].
Qed.

(** ** Quantity updates *)

Section Quantity.
Context {builtins : Builtins}.

Lemma sameButQuantity_refl (a : Item.t) : sameButQuantity a a.
Proof. repeat split. Qed.

Lemma sameButQuantity_with (q : jsval) (a : Item.t) :
  sameButQuantity (Item.with_quantity q a) a.
Proof. repeat split. Qed.

(** C10.  A quantity update changes nothing but the quantity of the
    items with the given id: every listed item keeps its place, its id,
    name, category, status, barcode, image and store rows, and an item
    with another id is kept whole; in the item store only the record
    under the given id can change, and what is written there is a listed
    item with that id up to its quantity; stores, receipts and the two
    other object stores are untouched. *)
Theorem update_quantity_frame (itemId : string) (delta : num) (st : AppState) :
  let st' := fst (handleUpdateQuantity itemId delta st) in
  length (items st') = length (items st)
  /\ (forall k old, items st !! k = Some old ->
        exists new, items st' !! k = Some new /\ sameButQuantity new old
                    /\ (Item.id old <> itemId -> new = old))
  /\ stores st' = stores st /\ receipts st' = receipts st
  /\ (forall key, key <> itemId ->
        IDB.ITEM_STORE (db st') !! key = IDB.ITEM_STORE (db st) !! key)
  /\ (forall r, IDB.ITEM_STORE (db st') !! itemId = Some r ->
        IDB.ITEM_STORE (db st) !! itemId = Some r
        \/ exists old, In old (items st) /\ Item.id old = itemId
                       /\ sameButQuantity r old)
  /\ IDB.STORE_STORE (db st') = IDB.STORE_STORE (db st)
  /\ IDB.RECEIPT_STORE (db st') = IDB.RECEIPT_STORE (db st).
Proof.
  unfold handleUpdateQuantity.
  set (f := fun item : Item.t =>
              if String.eqb (Item.id item) itemId
              then Item.with_quantity
                     (JNum (Math_max one (js_add (Item.quantity item) (JNum delta)))) item
              else item).
  assert (Hid : forall x, String.eqb (Item.id (f x)) itemId
                          = String.eqb (Item.id x) itemId).
  { intros x; unfold f. destruct (String.eqb (Item.id x) itemId) eqn:E; simpl; auto. }
  assert (Hsame : forall x, sameButQuantity (f x) x).
  { intros x; unfold f. destruct (String.eqb (Item.id x) itemId);
      [apply sameButQuantity_with | apply sameButQuantity_refl]. }
  rewrite (find_map_same _ f _ Hid).
  destruct (find _ (items st)) as [first|] eqn:Hfind; simpl.
  2:{ repeat split; auto. intros k old Hk. exists old.
      split; auto. split; auto using sameButQuantity_refl. }
  destruct (updateItemDB (f first) (db st)) as [d|] eqn:Hput; simpl.
  2:{ repeat split; auto. intros k old Hk. exists old.
      split; auto. split; auto using sameButQuantity_refl. }
  apply updateItemDB_inv in Hput. subst d; simpl.
  assert (Hfirst : Item.id first = itemId).
  { apply find_some in Hfind as [_ Hf]. now apply String.eqb_eq. }
  assert (Hkey : Item.id (f first) = itemId).
  { destruct (Hsame first) as [-> _]. exact Hfirst. }
  rewrite Hkey.
  split; [apply length_map|].
  split.
  { intros k old Hk. exists (f old). rewrite lookup_map, Hk. split; auto.
    split; auto. intros Hne. unfold f. apply String.eqb_neq in Hne.
    now rewrite Hne. }
  repeat split; auto.
  - intros key Hne. now apply lookup_insert_ne.
  - intros r Hr. rewrite lookup_insert_eq in Hr. inversion Hr; subst r.
    right. exists first. split; [|split; auto].
    apply find_some in Hfind as [Hin _]. exact Hin.
Qed.
End Quantity.

(** ** Receipts and rejected imports *)

Section Guards.
Context {builtins : Builtins}.

(** C8.  With no visible item, [handleLogReceipt] only logs a warning:
    the whole state, in particular the receipt store and the receipt
    list, is returned as it was. *)
Theorem log_receipt_empty_noop (uuid now : string) (st : AppState) :
  filteredAndSortedItems st = [] ->
  handleLogReceipt uuid now st
  = (st, [console_warn "Cannot log receipt: No visible items."]).
Proof.
  intros Hvis. unfold handleLogReceipt, totalVisibleItemCount.
  rewrite Hvis. reflexivity.
Qed.

Lemma rejected_validate (result : ReaderResult) :
  rejected result <-> validate result = None.
Proof.
  split.
  - intros [| | |d Hd|d Hd]; simpl; auto; rewrite Hd; auto.
    destruct (Document.items d); auto.
  - destruct result as [|[[|d]|]]; simpl; intros Hv;
      [constructor|constructor| |constructor].
    destruct (Document.items d) eqn:Hi; [|now apply rejected_no_items].
    destruct (Document.stores d) eqn:Hs; [discriminate|].
    now apply rejected_no_stores.
Qed.

(** C6.  An import whose content is not text, does not parse, is not an
    object, or lacks the [items] or the [stores] array is rejected before
    any write: the state, persisted and in memory, is returned as it
    was, and the error is logged. *)
Theorem import_rejected_unchanged (result : ReaderResult) (st : AppState) :
  rejected result ->
  handleImportData (ReaderLoad result) st
  = (st, [console_error "Error importing data:"]).
Proof.
  intros Hrej. apply rejected_validate in Hrej.
  unfold handleImportData, importBody. rewrite Hrej.
  unfold Try.throw. now rewrite withDB_same.
Qed.
End Guards.

(** ** Order on numbers *)

Lemma Qltb_lt (a b : Q) : Qltb a b = true <-> (a < b)%Q.
Proof.
  unfold Qltb. rewrite negb_true_iff. split.
  - intros H. apply Qnot_le_lt. intros Hle. apply Qle_bool_iff in Hle. congruence.
  - intros H. destruct (Qle_bool b a) eqn:E; auto.
    apply Qle_bool_iff in E. exfalso. apply (Qlt_not_le _ _ H E).
Qed.

Lemma Qltb_ge (a b : Q) : Qltb a b = false <-> (b <= a)%Q.
Proof.
  unfold Qltb. rewrite negb_false_iff. apply Qle_bool_iff.
Qed.

Lemma Qis0_eq (a : Q) : Qis0 a = true <-> (a == 0)%Q.
Proof. unfold Qis0. apply Qeq_bool_iff. Qed.

Lemma Qis0_neq (a : Q) : Qis0 a = false <-> ~ (a == 0)%Q.
Proof.
  unfold Qis0. split.
  - intros H E. apply Qeq_bool_iff in E. congruence.
  - intros H. destruct (Qeq_bool a 0) eqn:E; auto.
    apply Qeq_bool_iff in E. contradiction.
Qed.

Ltac qbool :=
  repeat match goal with
    | H : Qltb _ _ = true |- _ => apply Qltb_lt in H
    | H : Qltb _ _ = false |- _ => apply Qltb_ge in H
    | H : Qis0 _ = true |- _ => apply Qis0_eq in H
    | H : Qis0 _ = false |- _ => apply Qis0_neq in H
    | |- Qltb _ _ = true => apply Qltb_lt
    | |- Qltb _ _ = false => apply Qltb_ge
    | |- Qis0 _ = true => apply Qis0_eq
    | |- Qis0 _ = false => apply Qis0_neq
    end.





(** ** The cheapest option *)

Section ArgMin.
Context {A : Type} (key : A -> num).

End ArgMin.



Section Pricing.
Context {builtins : Builtins}.


Lemma filter_nil_Forall {A : Type} (p : A -> bool) (l : list A) :
  List.filter p l = [] <-> Forall (fun x => p x = false) l.
Proof.
  induction l as [|x l IH]; simpl; [split; auto|].
  destruct (p x) eqn:Hx; split; intros H; try discriminate.
  - inversion H; congruence.
  - constructor; auto. now apply IH.
  - inversion H; subst. now apply IH.
Qed.

End Pricing.

(** ** Strings *)

Lemma is_space_lower (c : ascii) : Str.is_space (Str.lower c) = Str.is_space c.
Proof. destruct c as [[] [] [] [] [] [] [] []]; reflexivity. Qed.



Lemma trimStart_lower (s : string) :
  Str.trimStart (Str.toLowerCase s) = Str.toLowerCase (Str.trimStart s).
Proof.
  induction s as [|c s IH]; simpl; [reflexivity|].
  rewrite is_space_lower. destruct (Str.is_space c); auto.
Qed.

Lemma trimEnd_lower (s : string) :
  Str.trimEnd (Str.toLowerCase s) = Str.toLowerCase (Str.trimEnd s).
Proof.
  induction s as [|c s IH]; simpl; [reflexivity|].
  rewrite IH, is_space_lower.
  destruct (Str.trimEnd s); simpl; auto. destruct (Str.is_space c); auto.
Qed.

Lemma trim_lower (s : string) :
  Str.trim (Str.toLowerCase s) = Str.toLowerCase (Str.trim s).
Proof. unfold Str.trim. now rewrite trimStart_lower, trimEnd_lower. Qed.


Lemma trim_blank (s : string) : blank s -> Str.trim s = "".
Proof.
  unfold Str.trim. induction s as [|c s IH]; simpl; [reflexivity|].
  intros [Hc Hs]. rewrite Hc. auto.
Qed.

Lemma truthy_string (s : string) : truthy (JStr s) = false <-> s = "".
Proof.
  simpl. rewrite negb_false_iff. apply String.eqb_eq.
Qed.

Lemma startsWith_spec (s p : string) :
  Str.startsWith s p = true <-> exists r, s = (p ++ r)%string.
Proof.
  revert s; induction p as [|a p IH]; intros s.
  - destruct s; simpl; split; eauto.
  - destruct s as [|b s]; simpl.
    + split; [discriminate|intros [r Hr]; discriminate].
    + rewrite andb_true_iff, IH. split.
      * intros [Hab [r ->]]. apply Ascii.eqb_eq in Hab. subst. eauto.
      * intros [r Hr]. injection Hr as -> ->. split; eauto. apply Ascii.eqb_refl.
Qed.



(** ** Sorting *)

Section SortFacts.
Context {A : Type} (compare : A -> A -> num).

Lemma sort_insert_perm (x : A) (l : list A) :
  Permutation (sort_insert compare x l) (x :: l).
Proof.
  induction l as [|y l IH]; cbn [sort_insert]; [reflexivity|].
  destruct (num_gt (compare x y) (Fin 0)); [|reflexivity].
  rewrite IH. apply perm_swap.
Qed.

Lemma Array_sort_perm (l : list A) : Permutation (Array_sort compare l) l.
Proof.
  induction l as [|x l IH]; simpl; [reflexivity|].
  rewrite sort_insert_perm. now constructor.
Qed.

Lemma Array_sort_In (l : list A) (x : A) : In x (Array_sort compare l) <-> In x l.
Proof.
  split; apply Permutation_in; [|symmetry]; apply Array_sort_perm.
Qed.

(** A class of elements none of which the comparator puts behind another
    one of the class keeps its order. *)
Lemma sort_insert_stable (same : A -> bool) (x : A) (l : list A) :
  (forall a b, same a = true -> same b = true ->
               num_gt (compare a b) (Fin 0) = false) ->
  List.filter same (sort_insert compare x l) = List.filter same (x :: l).
Proof.
  intros Hsame. induction l as [|y l IH]; [reflexivity|].
  cbn [sort_insert]. destruct (num_gt (compare x y) (Fin 0)) eqn:Hxy; [|reflexivity].
  cbn [List.filter] in *. rewrite IH.
  destruct (same x) eqn:Hx, (same y) eqn:Hy; auto.
  rewrite (Hsame x y Hx Hy) in Hxy. discriminate.
Qed.

Lemma Array_sort_stable (same : A -> bool) (l : list A) :
  (forall a b, same a = true -> same b = true ->
               num_gt (compare a b) (Fin 0) = false) ->
  List.filter same (Array_sort compare l) = List.filter same l.
Proof.
  intros Hsame. induction l as [|x l IH]; [reflexivity|].
  simpl Array_sort. rewrite sort_insert_stable by exact Hsame.
  simpl. now rewrite IH.
Qed.
End SortFacts.

(** ** The visible list *)

Section Visible.
Context {builtins : Builtins}.



Lemma sorted_singleton (sortCriteria : string) (item : Item.t) :
  sorted sortCriteria [item] = [item].
Proof. reflexivity. Qed.

End Visible.

(** ** The quantity floor *)

Lemma Qltb_one_Z (z : Z) : Qltb 1 (inject_Z z) = true <-> (1 < z)%Z.
Proof. rewrite Qltb_lt. unfold Qlt; simpl. lia. Qed.



(** [Math.max(1, z)] on an integer [z]. *)
Lemma max_one_Z (z : Z) : num_max (Fin 1) (of_Z z) = of_Z (Z.max 1 z).
Proof.
  unfold of_Z; simpl. destruct (Qltb 1 (inject_Z z)) eqn:E.
  - apply Qltb_one_Z in E. now rewrite Z.max_r by lia.
  - assert (~ (1 < z)%Z) by (intros Hz; apply Qltb_one_Z in Hz; congruence).
    now rewrite Z.max_l by lia.
Qed.

Section Floor.
Context {builtins : Builtins}.

(** [Math.max(1, q || 1)] on a quantity of the form. *)
Lemma clamp_input (v : jsval) :
  integralInput v ->
  exists z : Z, Math_max one (js_or v one) = of_Z (Z.max 1 z).
Proof.
  intros [->|[->|[->|[z ->]]]]; try (exists 1%Z; reflexivity).
  unfold js_or, Math_max. simpl truthy.
  destruct (Qis0 (inject_Z z)) eqn:E; simpl negb; cbv iota.
  - exists 1%Z. reflexivity.
  - exists z. simpl ToNumber. apply max_one_Z.
Qed.

Lemma clamp_whole (z : Z) : wholeQuantity (JNum (of_Z (Z.max 1 z))).
Proof. exists (Z.max 1 z). split; [lia|reflexivity]. Qed.


Lemma addItemDB_inv (it : Item.t) (d d' : IDB.Database) :
  addItemDB it d = Some d' ->
  d' = IDB.mkDatabase true (<[Item.id it := it]> (IDB.ITEM_STORE d))
                      (IDB.STORE_STORE d) (IDB.RECEIPT_STORE d).
Proof.
  unfold addItemDB, IDB.onItems. destruct (IDB.available d); [|discriminate].
  simpl. destruct (IDB.ITEM_STORE d !! Item.id it); [discriminate|congruence].
Qed.

Lemma deleteItemDB_inv (itemId : string) (d d' : IDB.Database) :
  deleteItemDB itemId d = Some d' ->
  d' = IDB.mkDatabase true (base.delete itemId (IDB.ITEM_STORE d))
                      (IDB.STORE_STORE d) (IDB.RECEIPT_STORE d).
Proof.
  unfold deleteItemDB, IDB.onItems. destruct (IDB.available d); [|discriminate].
  simpl. congruence.
Qed.


End Floor.

(** ** Sorting by cost *)

Lemma cost_compare_gt (a b : num) :
  num_gt (num_mul (num_sub a b) (Fin 1)) (Fin 0) = num_lt b a.
Proof.
  destruct a as [| |x|], b as [| |y|]; try reflexivity.
  unfold num_sub, num_gt; simpl.
  destruct (Qltb y x) eqn:E; qbool; lra.
Qed.


Lemma num_lt_total_trans (x y z : num) :
  y <> NaN ->
  num_lt y x = false -> num_lt z y = false -> z <> NaN -> x <> NaN ->
  num_lt z x = false.
Proof.
  destruct x, y, z; simpl; intros; try congruence; auto. qbool. lra.
Qed.

Lemma num_lt_asym (x y : num) : num_lt x y = true -> num_lt y x = false.
Proof. destruct x, y; simpl; intros; try congruence; auto. qbool. lra. Qed.

Section KeySort.
Context {A : Type} (key : A -> num).

Lemma sort_insert_sorted (x : A) (l : list A) :
  key x <> NaN -> Forall (fun y => key y <> NaN) l ->
  StronglySorted (notAbove key) l ->
  StronglySorted (notAbove key) (sort_insert (byKey key) x l).
Proof.
  intros Hx Hl Hs. induction l as [|y l IH]; cbn [sort_insert].
  - repeat constructor.
  - inversion Hl as [|? ? Hy Hl']; subst.
    apply StronglySorted_inv in Hs as [Hs Hall].
    unfold byKey at 1. rewrite cost_compare_gt.
    destruct (num_lt (key y) (key x)) eqn:Hyx.
    + constructor; [now apply IH|].
      apply (Permutation_Forall (x := x :: l));
        [symmetry; apply sort_insert_perm|].
      constructor; auto. unfold notAbove. now apply num_lt_asym.
    + constructor; [constructor; auto|].
      constructor; [exact Hyx|].
      rewrite List.Forall_forall in *. intros z Hz. unfold notAbove in *.
      apply (num_lt_total_trans _ (key y)); auto.
Qed.

Lemma Array_sort_sorted (l : list A) :
  Forall (fun y => key y <> NaN) l ->
  StronglySorted (notAbove key) (Array_sort (byKey key) l).
Proof.
  induction l as [|x l IH]; intros Hl; cbn [Array_sort]; [constructor|].
  inversion Hl; subst. apply sort_insert_sorted; auto.
  apply (Permutation_Forall (x := l)); [symmetry; apply Array_sort_perm|auto].
Qed.

Lemma sorted_split (R : A -> A -> Prop) (l1 l2 : list A) (x : A) :
  StronglySorted R (l1 ++ x :: l2) -> Forall (R x) l2.
Proof.
  induction l1 as [|y l1 IH]; simpl; intros Hs;
    apply StronglySorted_inv in Hs as [Hs Hall]; auto.
Qed.
End KeySort.


Section CostSort.
Context {builtins : Builtins}.





End CostSort.

(** ** Import and export *)

Section CommitAdds.
Context {R : Type} (keyPath : R -> string).

Lemma keyed_lookup_None (l : list R) (k : string) :
  k ∉ map keyPath l -> keyed keyPath l !! k = None.
Proof.
  intros Hk. unfold keyed. apply not_elem_of_list_to_map_1.
  rewrite <- list_fmap_compose. exact Hk.
Qed.

Lemma commit_adds (l : list R) (m : gmap string R) :
  NoDup (map keyPath l) ->
  (forall r, In r l -> m !! keyPath r = None) ->
  IDB.commit keyPath (map IDB.add l) m = Some (keyed keyPath l ∪ m).
Proof.
  revert m; induction l as [|x l IH]; intros m Hnd Hfree; simpl.
  - unfold keyed; simpl. now rewrite (left_id ∅ (∪)).
  - inversion Hnd as [|? ? Hx Hnd']; subst.
    rewrite (Hfree x (or_introl eq_refl)).
    rewrite IH; auto.
    + f_equal. unfold keyed at 2. simpl. fold (keyed keyPath l).
      rewrite <- insert_union_l, <- insert_union_r; auto.
      now apply keyed_lookup_None.
    + intros r Hr. rewrite lookup_insert_ne; [apply Hfree; now right|].
      intros E. apply Hx. rewrite E. apply list_elem_of_In. now apply in_map.
Qed.

(** [store.clear()] followed by one [store.add] per record. *)
Lemma commit_replace (l : list R) (m : gmap string R) :
  NoDup (map keyPath l) ->
  IDB.commit keyPath (IDB.clear :: map IDB.add l) m = Some (keyed keyPath l).
Proof.
  intros Hnd. simpl. rewrite commit_adds; auto.
  now rewrite (right_id ∅ (∪)).
Qed.
End CommitAdds.

Lemma map_fixed {A : Type} (f : A -> A) (l : list A) :
  Forall (fun x => f x = x) l -> map f l = l.
Proof. induction 1 as [|x l Hx _ IH]; simpl; congruence. Qed.


Section ImportExport.
Context {builtins : Builtins}.

Lemma importItem_id (item : Item.t) : Item.id (importItem item) = Item.id item.
Proof. reflexivity. Qed.

(** The three transactions of a validated import, when each commits. *)
Lemma importBody_commits (result : ReaderResult) (d : IDB.Database)
      (its : list Item.t) (sts : list Store.t) (rcs : option (list Receipt.t)) :
  validate result = Some (its, sts, rcs) ->
  IDB.available d = true ->
  NoDup (map Item.id its) ->
  NoDup (map Store.id (firstn MAX_REUSABLE_STORES sts)) ->
  NoDup (map Receipt.id (default [] rcs)) ->
  importBody result d
  = (IDB.mkDatabase true
       (keyed Item.id (map importItem its))
       (keyed Store.id (firstn MAX_REUSABLE_STORES sts))
       (keyed Receipt.id (default [] rcs)),
     Some (map importItem its, firstn MAX_REUSABLE_STORES sts, default [] rcs)).
Proof.
  intros Hv Hav Hi Hs Hr. unfold importBody. rewrite Hv.
  unfold Try.bind, Try.await, Try.ret, IDB.onItems, IDB.onStores, IDB.onReceipts.
  rewrite Hav. rewrite commit_replace.
  2:{ rewrite map_map. exact Hi. }
  cbn [IDB.available IDB.ITEM_STORE IDB.STORE_STORE IDB.RECEIPT_STORE].
  rewrite commit_replace by exact Hs.
  cbn [IDB.available IDB.ITEM_STORE IDB.STORE_STORE IDB.RECEIPT_STORE].
  rewrite commit_replace by exact Hr.
  reflexivity.
Qed.

(** C1, as the code has it.  A validated import whose transactions commit
    (the database opens, ids are unique within each imported collection)
    replaces the three collections, in the store and in memory: the items
    with nothing but their quantity normalised to the number
    [Math.max(1, quantity || 1)] - name and store rows are taken as they
    are -, the stores cut to the first 50, the receipts as given or none. *)
Theorem import_replaces_state (result : ReaderResult) (st : AppState)
        (its : list Item.t) (sts : list Store.t) (rcs : option (list Receipt.t)) :
  validate result = Some (its, sts, rcs) ->
  IDB.available (db st) = true ->
  NoDup (map Item.id its) ->
  NoDup (map Store.id (firstn MAX_REUSABLE_STORES sts)) ->
  NoDup (map Receipt.id (default [] rcs)) ->
  let st' := fst (handleImportData (ReaderLoad result) st) in
  items st' = map importItem its
  /\ stores st' = firstn MAX_REUSABLE_STORES sts
  /\ (length (stores st') <= 50)%nat
  /\ receipts st' = default [] rcs
  /\ IDB.ITEM_STORE (db st') = keyed Item.id (items st')
  /\ IDB.STORE_STORE (db st') = keyed Store.id (stores st')
  /\ IDB.RECEIPT_STORE (db st') = keyed Receipt.id (receipts st')
  /\ (forall item,
        sameButQuantity (importItem item) item
        /\ Item.quantity (importItem item)
           = JNum (Math_max one (js_or (Item.quantity item) one))).
Proof.
  intros Hv Hav Hi Hs Hr. unfold handleImportData.
  rewrite (importBody_commits _ _ _ _ _ Hv Hav Hi Hs Hr).
  cbn [fst items stores receipts db setItems setStores setReceipts withDB
       IDB.ITEM_STORE IDB.STORE_STORE IDB.RECEIPT_STORE].
  repeat split; auto. apply firstn_le_length.
Qed.




End ImportExport.

(** * The properties on the sample data *)

Lemma sample_model_milk : modelItem Sample.milk.
Proof.
  split.
  - exists 2%Z. split; [lia|reflexivity].
  - intros rows [= <-]. repeat constructor; eexists; reflexivity.
Defined.

Lemma sample_model_bread : modelItem Sample.bread.
Proof.
  split.
  - exists 1%Z. split; [lia|reflexivity].
  - intros rows [= <-]. constructor.
Defined.



Lemma sample_model_pantry : modelState Sample.pantry.
Proof.
  unfold modelState. split_and!.
  - reflexivity.
  - apply NoDup_cons; split; [|apply NoDup_singleton].
    intros Hin. apply list_elem_of_In in Hin. destruct Hin as [E|[]]. discriminate E.
  - constructor.
  - constructor.
  - constructor; [apply sample_model_milk|].
    constructor; [apply sample_model_bread|constructor].
  - simpl. unfold MAX_REUSABLE_STORES. lia.
  - constructor.
Defined.

(** C1 as stated fails: the import of a file whose item has a padded name,
    a row without store name and a price written as text validates and
    commits, and stores the item with its quantity raised to 1 but with the
    name, the rows and the prices as they were, which is not what the item
    sanitizer of create and edit makes of it. *)
Lemma import_skips_item_sanitizer :
  let event := ReaderLoad (Text (Some (JSON.Object Sample.rawDocument))) in
  let st' := fst (handleImportData (builtins := decimalBuiltins) event Sample.emptyApp) in
  validate (Text (Some (JSON.Object Sample.rawDocument)))
  = Some ([Sample.rawMilk], [Store.mk "s-1" "A"], None)
  /\ items st' = [Item.with_quantity (JNum (Fin 1)) Sample.rawMilk]
  /\ IDB.ITEM_STORE (db st') !! "i-9"
     = Some (Item.with_quantity (JNum (Fin 1)) Sample.rawMilk)
  /\ map Item.name (items st') = ["  Milk "]
  /\ map Item.name (map (sanitizeItem (builtins := decimalBuiltins)) [Sample.rawMilk])
     = ["Milk"]
  /\ map Item.stores (map (sanitizeItem (builtins := decimalBuiltins)) [Sample.rawMilk])
     = [Some [StorePrice.mk "A" (JNum (Fin 2.50))]]
  /\ items st' <> map (sanitizeItem (builtins := decimalBuiltins)) [Sample.rawMilk].
Proof.
  cbv zeta. repeat split; try reflexivity.
  intros E. apply (f_equal (map Item.name)) in E. vm_compute in E. discriminate E.
Qed.

Lemma import_replaces_state_witness :
  let result := Text (Some (JSON.Object Sample.rawDocument)) in
  validate result = Some ([Sample.rawMilk], [Store.mk "s-1" "A"], None)
  /\ items (fst (handleImportData (builtins := decimalBuiltins)
                                  (ReaderLoad result) Sample.emptyApp))
     = map (importItem (builtins := decimalBuiltins)) [Sample.rawMilk].
Proof.
  cbv zeta. split; [reflexivity|].
  refine (proj1 (import_replaces_state
                   (builtins := decimalBuiltins)
                   (Text (Some (JSON.Object Sample.rawDocument))) Sample.emptyApp
                   [Sample.rawMilk] [Store.mk "s-1" "A"] None
                   eq_refl eq_refl _ _ _)).
  - apply NoDup_singleton.
  - apply NoDup_singleton.
  - constructor.
Defined.





Lemma import_rejected_unchanged_witness :
  rejected (Text (Some (JSON.Object Sample.noStores)))
  /\ handleImportData (builtins := decimalBuiltins)
       (ReaderLoad (Text (Some (JSON.Object Sample.noStores)))) Sample.pantry
     = (Sample.pantry, [console_error "Error importing data:"]).
Proof.
  assert (Hrej : rejected (Text (Some (JSON.Object Sample.noStores)))).
  { apply rejected_no_stores. reflexivity. }
  split; [exact Hrej|].
  exact (import_rejected_unchanged (builtins := decimalBuiltins) _ Sample.pantry Hrej).
Defined.


Lemma log_receipt_empty_noop_witness :
  filteredAndSortedItems (builtins := decimalBuiltins) Sample.emptyApp = []
  /\ handleLogReceipt (builtins := decimalBuiltins) "r-1" "2025-01-01T00:00:00.000Z"
                      Sample.emptyApp
     = (Sample.emptyApp, [console_warn "Cannot log receipt: No visible items."]).
Proof.
  split; [reflexivity|].
  exact (log_receipt_empty_noop (builtins := decimalBuiltins) "r-1"
           "2025-01-01T00:00:00.000Z" Sample.emptyApp eq_refl).
Defined.

Lemma cycle_status_advances_witness :
  IDB.available (db Sample.pantry) = true
  /\ exists s',
       newStatus "Depleted" = Some s'
       /\ items (fst (handleCycleStatus "i-1" Sample.pantry)) !! 0%nat
          = Some (Item.with_status s' Sample.milk).
Proof.
  split; [reflexivity|].
  exact (proj1 (proj2 (proj2 (cycle_status_advances Sample.pantry "i-1" eq_refl)))
               0%nat Sample.milk eq_refl eq_refl).
Defined.


(** ** The definitions at work *)

Example trim_example : Str.trim "  Mi lk  " = "Mi lk".
Proof. reflexivity. Qed.

Example split_example : Str.split "-" "cheapestPrice-asc" = ["cheapestPrice"; "asc"].
Proof. reflexivity. Qed.

Example number_example :
  Math_max (builtins := decimalBuiltins) one (js_or (JStr "") one) = Fin 1
  /\ ToNumber (builtins := decimalBuiltins) (JStr "2.50") = Fin 2.50
  /\ num_sub PosInf PosInf = NaN
  /\ num_gt NaN (Fin 0) = false.
Proof. repeat split; reflexivity. Qed.

Example cost_sort_example :
  map Item.name
      (sorted (builtins := decimalBuiltins) "cheapestPrice-asc"
              [Sample.salt; Sample.milk; Sample.bread; Sample.eggs])
  = ["Milk"; "Eggs"; "Salt"; "Bread"]
  /\ map (costKey (builtins := decimalBuiltins))
         [Sample.salt; Sample.milk; Sample.bread; Sample.eggs]
     = [PosInf; Fin (2.00 * 2); PosInf; Fin (1.00 * 4)].
Proof. split; reflexivity. Qed.

(** Why the pricing property asks for prices that are numbers: two prices
    held as text compare as text, and the row chosen is then not the
    cheapest. *)
Example text_prices_example :
  getCheapestOption (builtins := decimalBuiltins) Sample.textPrices
  = Cheapest.mk (JNum (Fin 9.5)) "C".
Proof. reflexivity. Qed.

(** An import that lists two items under one id validates, but its first
    transaction aborts on the second [add]: nothing is replaced. *)
Example import_twins_aborts :
  handleImportData (builtins := decimalBuiltins)
    (ReaderLoad (Text (Some (JSON.Object Sample.twins)))) Sample.pantry
  = (Sample.pantry, [console_error "Error importing data:"]).
Proof. reflexivity. Qed.


(** * Further properties of the component *)

(** ** Trimming *)

Lemma trimStart_headOK (s : string) : headOK (Str.trimStart s).
Proof.
  induction s as [|c s IH]; simpl; auto.
  destruct (Str.is_space c) eqn:E; simpl; auto.
Qed.

Lemma headOK_trimStart (s : string) : headOK s -> Str.trimStart s = s.
Proof. destruct s as [|c s]; simpl; auto. now intros ->. Qed.

Lemma headOK_trimEnd (s : string) : headOK s -> headOK (Str.trimEnd s).
Proof.
  destruct s as [|c s]; simpl; auto. intros Hc.
  destruct (Str.trimEnd s); simpl; auto. now rewrite Hc.
Qed.

Lemma trimEnd_idem (s : string) : Str.trimEnd (Str.trimEnd s) = Str.trimEnd s.
Proof.
  induction s as [|c s IH]; simpl; auto.
  destruct (Str.trimEnd s) as [|d t] eqn:E.
  - destruct (Str.is_space c) eqn:Hc; simpl; auto. now rewrite Hc.
  - change (Str.trimEnd (String c (String d t)))
      with (match Str.trimEnd (String d t) with
            | EmptyString => if Str.is_space c then EmptyString else String c EmptyString
            | t' => String c t'
            end).
    rewrite IH. reflexivity.
Qed.

Lemma trim_idem (s : string) : Str.trim (Str.trim s) = Str.trim s.
Proof.
  unfold Str.trim.
  rewrite (headOK_trimStart (Str.trimEnd (Str.trimStart s))).
  - apply trimEnd_idem.
  - apply headOK_trimEnd, trimStart_headOK.
Qed.

(** ** Object store and list *)

Lemma keyed_cons {R : Type} (keyPath : R -> string) (x : R) (l : list R) :
  keyed keyPath (x :: l) = <[keyPath x := x]> (keyed keyPath l).
Proof. reflexivity. Qed.

(** Under a key the store built from a list has the first record with
    that key. *)
Lemma keyed_lookup_find {R : Type} (keyPath : R -> string) (l : list R) (k : string) :
  keyed keyPath l !! k = find (fun r => String.eqb (keyPath r) k) l.
Proof.
  induction l as [|x l IH]; [apply lookup_empty|].
  rewrite keyed_cons. simpl find.
  destruct (String.eqb_spec (keyPath x) k) as [->|Hne].
  - apply lookup_insert_eq.
  - rewrite lookup_insert_ne by exact Hne. exact IH.
Qed.

Lemma find_app_fresh {A : Type} (p : A -> bool) (l : list A) (x : A) :
  find p (l ++ [x]) = match find p l with
                      | Some y => Some y
                      | None => if p x then Some x else None
                      end.
Proof.
  induction l as [|y l IH]; simpl; [destruct (p x); reflexivity|].
  destruct (p y); auto.
Qed.

Lemma find_filter_sub {A : Type} (p q : A -> bool) (l : list A) :
  (forall x, p x = true -> q x = true) ->
  find p (List.filter q l) = find p l.
Proof.
  intros Hpq. induction l as [|x l IH]; simpl; auto.
  destruct (q x) eqn:Hq; simpl.
  - destruct (p x); auto.
  - destruct (p x) eqn:Hp; auto. apply Hpq in Hp. congruence.
Qed.

Lemma find_filter_none {A : Type} (p q : A -> bool) (l : list A) :
  (forall x, p x = true -> q x = false) ->
  find p (List.filter q l) = None.
Proof.
  intros Hpq. induction l as [|x l IH]; simpl; auto.
  destruct (q x) eqn:Hq; simpl; auto.
  destruct (p x) eqn:Hp; auto. apply Hpq in Hp. congruence.
Qed.

Lemma find_none_not_in (l : list Item.t) (k : string) :
  find (fun r => String.eqb (Item.id r) k) l = None <-> ~ In k (map Item.id l).
Proof.
  induction l as [|x l IH]; simpl; [tauto|].
  destruct (String.eqb_spec (Item.id x) k) as [E|Hne].
  - split; [discriminate|]. intros H. exfalso. apply H. now left.
  - rewrite IH. tauto.
Qed.

Section KeyedFacts.
Context {R : Type} (keyPath : R -> string).

Lemma keyed_app_fresh (l : list R) (x : R) :
  keyed keyPath l !! keyPath x = None ->
  keyed keyPath (l ++ [x]) = <[keyPath x := x]> (keyed keyPath l).
Proof.
  intros Hfresh. apply map_eq. intros k.
  rewrite keyed_lookup_find, find_app_fresh, <- keyed_lookup_find.
  destruct (String.eqb_spec (keyPath x) k) as [<-|Hne].
  - now rewrite Hfresh, lookup_insert_eq.
  - rewrite lookup_insert_ne by exact Hne. now destruct (keyed keyPath l !! k).
Qed.

Lemma keyed_filter_delete (l : list R) (k : string) :
  keyed keyPath (List.filter (fun r => negb (String.eqb (keyPath r) k)) l)
  = base.delete k (keyed keyPath l).
Proof.
  apply map_eq. intros k'. rewrite keyed_lookup_find.
  destruct (String.eqb_spec k k') as [<-|Hne].
  - rewrite lookup_delete_eq. apply find_filter_none.
    intros x Hx. now rewrite Hx.
  - rewrite lookup_delete_ne by exact Hne. rewrite keyed_lookup_find.
    apply find_filter_sub. intros x Hx. apply String.eqb_eq in Hx.
    apply negb_true_iff, String.eqb_neq. congruence.
Qed.

Lemma keyed_map_put (f : R -> R) (l : list R) (k : string) (first : R) :
  (forall r, keyPath (f r) = keyPath r) ->
  (forall r, keyPath r <> k -> f r = r) ->
  find (fun r => String.eqb (keyPath r) k) l = Some first ->
  keyed keyPath (map f l) = <[k := f first]> (keyed keyPath l).
Proof.
  intros Hkey Hother Hfirst. apply map_eq. intros k'.
  rewrite keyed_lookup_find, find_map_same by (intros x; now rewrite Hkey).
  destruct (String.eqb_spec k k') as [<-|Hne].
  - now rewrite Hfirst, lookup_insert_eq.
  - rewrite lookup_insert_ne by exact Hne. rewrite keyed_lookup_find.
    destruct (find (fun r => String.eqb (keyPath r) k') l) as [y|] eqn:Hy; cbn; auto.
    apply find_some in Hy as [_ Hy]. apply String.eqb_eq in Hy.
    rewrite Hother; auto. congruence.
Qed.

Lemma keyed_fresh_not_in (l : list R) (k : string) :
  keyed keyPath l !! k = None <-> ~ In k (map keyPath l).
Proof.
  rewrite keyed_lookup_find.
  induction l as [|x l IH]; simpl; [tauto|].
  destruct (String.eqb_spec (keyPath x) k) as [E|Hne].
  - split; [discriminate|]. intros H. exfalso. apply H. now left.
  - rewrite IH. tauto.
Qed.
End KeyedFacts.

(** ** Stores *)

Lemma trim_blank_iff_falsy (s : string) :
  truthy (JStr (Str.trim s)) = false <-> Str.trim s = "".
Proof. apply truthy_string. Qed.

(** X1.  [handleAddStore] keeps the store list within the cap of 50: a list
    of at most 50 stores stays one, and with 50 stores listed or with a
    blank name the call writes nothing, logs nothing and leaves the input
    field as it is. *)
Theorem add_store_bounded (uuid newStoreName : string) (st : AppState) :
  (length (stores st) <= MAX_REUSABLE_STORES)%nat ->
  (length (stores (fst (fst (handleAddStore uuid newStoreName st))))
   <= MAX_REUSABLE_STORES)%nat
  /\ (length (stores st) = MAX_REUSABLE_STORES \/ blank newStoreName ->
      handleAddStore uuid newStoreName st = (st, newStoreName, [])).
Proof.
  intros Hlen. unfold handleAddStore.
  destruct (MAX_REUSABLE_STORES <=? length (stores st))%nat eqn:Hcap.
  - split; [exact Hlen|reflexivity].
  - apply Nat.leb_gt in Hcap.
    destruct (truthy (JStr (Str.trim newStoreName))) eqn:Hname; simpl negb; cbv iota.
    + split.
      * destruct (addStoreDB _ (db st)); simpl; [|exact Hlen].
        rewrite length_app. simpl. lia.
      * intros [Hfull|Hblank]; [lia|].
        rewrite (trim_blank _ Hblank) in Hname. discriminate.
    + split; [exact Hlen|reflexivity].
Qed.

(** X2.  Below the cap, with a name that is not blank, an available
    database and an id that is not yet a key, [handleAddStore] appends the
    store under the trimmed name, writes it to the store collection under
    its id, empties the input field and touches nothing else; the name it
    stores is not empty and carries no outer white space. *)
Theorem add_store_appends (uuid newStoreName : string) (st : AppState) :
  (length (stores st) < MAX_REUSABLE_STORES)%nat ->
  Str.trim newStoreName <> "" ->
  IDB.available (db st) = true ->
  IDB.STORE_STORE (db st) !! uuid = None ->
  let newStore := Store.mk uuid (Str.trim newStoreName) in
  let st' := fst (fst (handleAddStore uuid newStoreName st)) in
  stores st' = stores st ++ [newStore]
  /\ IDB.STORE_STORE (db st') = <[uuid := newStore]> (IDB.STORE_STORE (db st))
  /\ snd (fst (handleAddStore uuid newStoreName st)) = ""
  /\ snd (handleAddStore uuid newStoreName st) = []
  /\ items st' = items st /\ receipts st' = receipts st
  /\ IDB.ITEM_STORE (db st') = IDB.ITEM_STORE (db st)
  /\ IDB.RECEIPT_STORE (db st') = IDB.RECEIPT_STORE (db st)
  /\ Store.name newStore <> "" /\ trimmed (Store.name newStore).
Proof.
  intros Hlen Hname Hav Hfree. cbv zeta. unfold handleAddStore.
  assert (Hcap : (MAX_REUSABLE_STORES <=? length (stores st))%nat = false)
    by (apply Nat.leb_gt; exact Hlen).
  rewrite Hcap.
  assert (Htr : truthy (JStr (Str.trim newStoreName)) = true).
  { destruct (truthy _) eqn:E; auto. apply truthy_string in E. contradiction. }
  rewrite Htr. simpl negb. cbv iota.
  unfold addStoreDB, IDB.onStores. rewrite Hav. simpl IDB.commit.
  cbn [Store.id]. rewrite Hfree. simpl.
  repeat split; auto. apply trim_idem.
Qed.

(** X3.  The store collection and the store list stay in step: when the
    collection holds exactly the listed stores, it still does after any
    [handleAddStore] and after any [handleDeleteStore], whether the write
    commits or fails. *)
Theorem stores_stay_synced (st : AppState) :
  IDB.STORE_STORE (db st) = keyed Store.id (stores st) ->
  (forall uuid newStoreName,
      let st' := fst (fst (handleAddStore uuid newStoreName st)) in
      IDB.STORE_STORE (db st') = keyed Store.id (stores st'))
  /\ (forall storeId,
        let st' := fst (handleDeleteStore storeId st) in
        IDB.STORE_STORE (db st') = keyed Store.id (stores st')).
Proof.
  intros Hsync. split.
  - intros uuid newStoreName. cbv zeta. unfold handleAddStore.
    destruct (MAX_REUSABLE_STORES <=? length (stores st))%nat; [exact Hsync|].
    destruct (negb _); [exact Hsync|].
    unfold addStoreDB, IDB.onStores.
    destruct (IDB.available (db st)); [|exact Hsync].
    simpl IDB.commit. cbn [Store.id].
    destruct (IDB.STORE_STORE (db st) !! uuid) eqn:Hk; [exact Hsync|].
    simpl. rewrite Hsync in *. symmetry.
    apply (keyed_app_fresh Store.id (stores st) (Store.mk uuid (Str.trim newStoreName))).
    exact Hk.
  - intros storeId. cbv zeta. unfold handleDeleteStore, deleteStoreDB, IDB.onStores.
    destruct (IDB.available (db st)); [|exact Hsync].
    simpl. rewrite Hsync. symmetry. apply keyed_filter_delete.
Qed.


(** ** Item writes: what they leave alone, and the store behind the list *)

Lemma sameOutsideItems_refl (st : AppState) : sameOutsideItems st st.
Proof. repeat split. Qed.

Lemma sameOutsideItems_trans (a b c : AppState) :
  sameOutsideItems a b -> sameOutsideItems b c -> sameOutsideItems a c.
Proof.
  unfold sameOutsideItems. intros (?&?&?&?&?&?&?) (?&?&?&?&?&?&?).
  repeat split; congruence.
Qed.

Lemma NoDup_map_filter {A : Type} (f : A -> string) (p : A -> bool) (l : list A) :
  NoDup (map f l) -> NoDup (map f (List.filter p l)).
Proof.
  induction l as [|x l IH]; simpl; auto.
  intros Hnd. apply NoDup_cons in Hnd as [Hx Hnd].
  destruct (p x); simpl; auto.
  apply NoDup_cons. split; auto.
  intros Hin. apply Hx. apply list_elem_of_In in Hin. apply list_elem_of_In.
  apply in_map_iff in Hin as (y & Hy & Hin). apply filter_In in Hin as [Hin _].
  apply in_map_iff. eauto.
Qed.

Lemma map_id_same (f : Item.t -> Item.t) (l : list Item.t) :
  (forall r, Item.id (f r) = Item.id r) -> map Item.id (map f l) = map Item.id l.
Proof. intros Hf. rewrite map_map. apply map_ext. exact Hf. Qed.

Section ItemWrites.
Context {builtins : Builtins}.

Lemma perform_frame (op : WriteOp) (st : AppState) :
  sameOutsideItems (perform op st) st.
Proof.
  destruct op as [uuid d|d|itemId up|itemId|itemId]; unfold perform.
  - unfold handleCreateItem.
    match goal with |- context [addItemDB ?it _] => set (newItem := it) end.
    destruct (addItemDB newItem (db st)) as [d'|] eqn:E; simpl;
      [|apply sameOutsideItems_refl].
    apply addItemDB_inv in E. subst d'. repeat split.
  - unfold handleUpdateItem.
    destruct (updateItemDB _ (db st)) as [d'|] eqn:E; simpl;
      [|apply sameOutsideItems_refl].
    apply updateItemDB_inv in E. subst d'. repeat split.
  - unfold handleUpdateQuantity.
    destruct (find _ _) as [it|]; simpl; [|apply sameOutsideItems_refl].
    destruct (updateItemDB it (db st)) as [d'|] eqn:E; simpl;
      [|apply sameOutsideItems_refl].
    apply updateItemDB_inv in E. subst d'. repeat split.
  - unfold handleCycleStatus.
    destruct (find _ _) as [it|]; simpl; [|apply sameOutsideItems_refl].
    destruct (updateItemDB it (db st)) as [d'|] eqn:E; simpl;
      [|apply sameOutsideItems_refl].
    apply updateItemDB_inv in E. subst d'. repeat split.
  - unfold handleDeleteItem.
    destruct (deleteItemDB itemId (db st)) as [d'|] eqn:E; simpl;
      [|apply sameOutsideItems_refl].
    apply deleteItemDB_inv in E. subst d'. repeat split.
Qed.

(** X5.  Item writes never reach the receipts: after any sequence of
    creates, edits, quantity deltas, status cycles and deletes, the
    receipts and the stores, in memory and in their collections, and the
    view settings are what they were.  A logged receipt is a snapshot
    that later changes to its items do not alter. *)
Theorem item_writes_leave_receipts (ops : list WriteOp) (st : AppState) :
  sameOutsideItems (run ops st) st.
Proof.
  unfold run. revert st. induction ops as [|op ops IH]; intros st; simpl.
  - apply sameOutsideItems_refl.
  - eapply sameOutsideItems_trans; [apply IH|apply perform_frame].
Qed.

Lemma perform_synced (op : WriteOp) (st : AppState) :
  synced st ->
  match op with
  | OpEdit updatedItem => In (Item.id updatedItem) (map Item.id (items st))
  | _ => True
  end ->
  synced (perform op st).
Proof.
  intros [Hsync Hnd] Hedit.
  destruct op as [uuid d|d|itemId up|itemId|itemId]; unfold perform.
  - unfold handleCreateItem.
    match goal with |- context [addItemDB ?it _] => set (newItem := it) end.
    unfold addItemDB, IDB.onItems.
    destruct (IDB.available (db st)); [|split; auto].
    simpl IDB.commit. change (Item.id newItem) with uuid.
    destruct (IDB.ITEM_STORE (db st) !! uuid) eqn:Hk; [split; auto|].
    unfold synced; simpl. rewrite Hsync in Hk. split.
    + rewrite Hsync. symmetry. now apply (keyed_app_fresh Item.id (items st) newItem).
    + rewrite map_app. simpl. apply NoDup_app. split; [exact Hnd|].
      split; [|apply NoDup_singleton].
      intros x Hx Hx'. apply list_elem_of_In in Hx.
      apply list_elem_of_In in Hx'. destruct Hx' as [<-|[]].
      apply keyed_fresh_not_in in Hk. contradiction.
  - unfold handleUpdateItem.
    set (s := sanitizeItem d).
    set (f := fun item : Item.t => if String.eqb (Item.id item) (Item.id s) then s else item).
    assert (Hf : forall r, Item.id (f r) = Item.id r).
    { intros r. unfold f. destruct (String.eqb_spec (Item.id r) (Item.id s)); auto. }
    unfold updateItemDB, IDB.onItems.
    destruct (IDB.available (db st)); [|split; auto].
    unfold synced; simpl. split; [|now rewrite map_id_same].
    destruct (find (fun r => String.eqb (Item.id r) (Item.id s)) (items st))
      as [first|] eqn:Hfirst.
    2:{ apply find_none_not_in in Hfirst. contradiction. }
    rewrite (keyed_map_put Item.id f (items st) (Item.id s) first); auto.
    + rewrite Hsync. f_equal. unfold f.
      apply find_some in Hfirst as [_ E]. now rewrite E.
    + intros r Hr. unfold f. apply String.eqb_neq in Hr. now rewrite Hr.
  - unfold handleUpdateQuantity.
    set (f := fun item : Item.t => if String.eqb (Item.id item) itemId then _ else item).
    assert (Hf : forall r, Item.id (f r) = Item.id r).
    { intros r. unfold f. destruct (String.eqb (Item.id r) itemId); auto. }
    rewrite find_map_same by (intros x; now rewrite Hf).
    destruct (find (fun i => String.eqb (Item.id i) itemId) (items st))
      as [first|] eqn:Hfirst; simpl; [|split; auto].
    unfold updateItemDB, IDB.onItems.
    destruct (IDB.available (db st)); [|split; auto].
    unfold synced; simpl. split; [|now rewrite map_id_same].
    rewrite (keyed_map_put Item.id f (items st) itemId first); auto.
    + rewrite Hsync, Hf. apply find_some in Hfirst as [_ E].
      apply String.eqb_eq in E. now rewrite E.
    + intros r Hr. unfold f. apply String.eqb_neq in Hr. now rewrite Hr.
  - unfold handleCycleStatus.
    set (f := fun item : Item.t => if String.eqb (Item.id item) itemId then _ else item).
    assert (Hf : forall r, Item.id (f r) = Item.id r).
    { intros r. unfold f. destruct (String.eqb (Item.id r) itemId); auto. }
    rewrite find_map_same by (intros x; now rewrite Hf).
    destruct (find (fun i => String.eqb (Item.id i) itemId) (items st))
      as [first|] eqn:Hfirst; simpl; [|split; auto].
    unfold updateItemDB, IDB.onItems.
    destruct (IDB.available (db st)); [|split; auto].
    unfold synced; simpl. split; [|now rewrite map_id_same].
    rewrite (keyed_map_put Item.id f (items st) itemId first); auto.
    + rewrite Hsync, Hf. apply find_some in Hfirst as [_ E].
      apply String.eqb_eq in E. now rewrite E.
    + intros r Hr. unfold f. apply String.eqb_neq in Hr. now rewrite Hr.
  - unfold handleDeleteItem, deleteItemDB, IDB.onItems.
    destruct (IDB.available (db st)); [|split; auto].
    unfold synced; simpl. split; [|now apply NoDup_map_filter].
    rewrite Hsync. symmetry. apply keyed_filter_delete.
Qed.

(** X6.  The item store is the source of truth behind the list: when it
    holds exactly the listed items, each id once, it still does after any
    sequence of creates, edits of listed items, quantity deltas, status
    cycles and deletes - whether a write commits or fails. *)
Theorem item_store_stays_synced (ops : list WriteOp) (st : AppState) :
  synced st -> editsListed ops st -> synced (run ops st).
Proof.
  unfold run. revert st. induction ops as [|op ops IH]; intros st Hs He; simpl; auto.
  destruct He as [Hop Hrest]. apply IH; auto. now apply perform_synced.
Qed.

(** X7.  The edit of an item that is not listed is the one write that
    breaks this: with the database available, [handleUpdateItem] stores
    the sanitized record under its id, while the list in memory stays as
    it was and nothing is logged. *)
Theorem edit_unlisted_item_only_stored (updatedItem : Item.t) (st : AppState) :
  IDB.available (db st) = true ->
  ~ In (Item.id updatedItem) (map Item.id (items st)) ->
  let st' := fst (handleUpdateItem updatedItem st) in
  items st' = items st
  /\ IDB.ITEM_STORE (db st') !! Item.id updatedItem = Some (sanitizeItem updatedItem)
  /\ snd (handleUpdateItem updatedItem st) = [].
Proof.
  intros Hav Hnot. cbv zeta. unfold handleUpdateItem.
  rewrite (updateItemDB_available _ _ Hav). simpl. split; [|split; auto].
  - apply map_fixed. apply List.Forall_forall. intros x Hx.
    destruct (String.eqb_spec (Item.id x) (Item.id updatedItem)) as [E|]; auto.
    exfalso. apply Hnot. rewrite <- E. now apply in_map.
  - apply lookup_insert_eq.
Qed.
End ItemWrites.

(** ** Operations that undo each other *)

Lemma cycle_items (itemId : string) (st : AppState) :
  IDB.available (db st) = true ->
  items (fst (handleCycleStatus itemId st))
  = map (fun item => if String.eqb (Item.id item) itemId
                     then Item.with_status
                            (default (Item.status item) (newStatus (Item.status item))) item
                     else item)
        (items st)
  /\ IDB.available (db (fst (handleCycleStatus itemId st))) = true.
Proof.
  intros Hav. unfold handleCycleStatus.
  set (f := fun item : Item.t => if String.eqb (Item.id item) itemId then _ else item).
  assert (Hf : forall x, String.eqb (Item.id (f x)) itemId = String.eqb (Item.id x) itemId).
  { intros x. unfold f. destruct (String.eqb (Item.id x) itemId) eqn:E; simpl; auto. }
  rewrite find_map_same by exact Hf.
  destruct (find (fun i => String.eqb (Item.id i) itemId) (items st))
    as [first|] eqn:Hfirst; simpl.
  - rewrite (updateItemDB_available _ _ Hav). simpl. auto.
  - split; auto. symmetry. apply map_fixed. apply List.Forall_forall. intros x Hx.
    unfold f. destruct (String.eqb (Item.id x) itemId) eqn:E; auto.
    pose proof (find_none _ _ Hfirst x Hx) as Hno. simpl in Hno. congruence.
Qed.

Lemma with_status_same (item : Item.t) : Item.with_status (Item.status item) item = item.
Proof. destruct item; reflexivity. Qed.

(** X8.  The status cycle has period three: with the database available,
    three calls of [handleCycleStatus] on an id bring the list back to
    what it was, provided the items with that id carry one of the three
    statuses.  (A status outside the cycle is replaced by Depleted at the
    first call and is not seen again.) *)
Theorem cycle_status_three_times (itemId : string) (st : AppState) :
  IDB.available (db st) = true ->
  (forall item, In item (items st) -> Item.id item = itemId ->
                In (Item.status item) STATUS_CYCLE) ->
  let once := fst (handleCycleStatus itemId st) in
  let twice := fst (handleCycleStatus itemId once) in
  let thrice := fst (handleCycleStatus itemId twice) in
  items thrice = items st.
Proof.
  intros Hav Hknown. cbv zeta.
  destruct (cycle_items itemId st Hav) as [E1 Hav1].
  destruct (cycle_items itemId _ Hav1) as [E2 Hav2].
  destruct (cycle_items itemId _ Hav2) as [E3 _].
  rewrite E3, E2, E1, !map_map.
  apply map_fixed. apply List.Forall_forall. intros x Hx.
  destruct (String.eqb (Item.id x) itemId) eqn:E; simpl; [|now rewrite !E].
  rewrite !E. simpl. rewrite !E. simpl.
  apply String.eqb_eq in E. specialize (Hknown x Hx E).
  destruct x as [i n c s q b u ss]; simpl in *.
  destruct Hknown as [<-|[<-|[<-|[]]]]; reflexivity.
Qed.

Section Undo.
Context {builtins : Builtins}.



(** ** What the item sanitizer guarantees *)

Lemma sanitizeStores_shape (raw : option (list StorePrice.t)) :
  Forall (fun r => StorePrice.storeName r <> "" /\ exists n, StorePrice.price r = JNum n)
         (sanitizeStores raw).
Proof.
  unfold sanitizeStores. apply List.Forall_forall. intros r Hr.
  apply in_map_iff in Hr as (s & <- & Hs). apply filter_In in Hs as [_ Hs].
  apply andb_true_iff in Hs as [Hname _]. simpl. split; [|eauto].
  intros E. rewrite E in Hname. discriminate.
Qed.

Lemma sanitizeStores_fixed (rows : list StorePrice.t) :
  Forall (fun r => StorePrice.storeName r <> "" /\ exists n, StorePrice.price r = JNum n)
         rows ->
  sanitizeStores (Some rows) = rows.
Proof.
  unfold sanitizeStores. change (default [] (Some rows)) with rows.
  induction 1 as [|r rows [Hname [n Hp]] _ IH]; cbn [List.filter map]; auto.
  assert (Ht : truthy (JStr (StorePrice.storeName r)) = true).
  { destruct (truthy (JStr (StorePrice.storeName r))) eqn:E; auto.
    apply truthy_string in E. contradiction. }
  rewrite Ht, Hp. cbn [andb defined List.filter map ToNumber]. rewrite IH.
  destruct r as [nm pr]; cbn in *. now subst.
Qed.

Lemma clamp_not_below (v : jsval) :
  num_lt (Math_max one (js_or v one)) (Fin 1) = false.
Proof.
  unfold Math_max. simpl (ToNumber one).
  destruct (ToNumber (js_or v one)) as [| |x|]; simpl; auto.
  destruct (Qltb 1 x) eqn:E; simpl; qbool; lra.
Qed.


(** X11.  Saving twice is saving once: unless the quantity comes out as
    NaN, the sanitizer gives back a record it has produced, so an edit
    that changes nothing stores the same item again. *)
Theorem sanitize_item_idempotent (updatedItem : Item.t) :
  Item.quantity (sanitizeItem updatedItem) <> JNum NaN ->
  sanitizeItem (sanitizeItem updatedItem) = sanitizeItem updatedItem.
Proof.
  intros Hq. unfold sanitizeItem at 1. unfold sanitizeItem in Hq. simpl in Hq.
  cbn [sanitizeItem Item.id Item.name Item.category Item.status Item.quantity
       Item.barcode Item.imageUrl Item.stores].
  unfold sanitizeItem. f_equal.
  - apply trim_idem.
  - f_equal. unfold Math_max in *. simpl (ToNumber one) in *.
    destruct (ToNumber (js_or (Item.quantity updatedItem) one)) as [| |x|] eqn:Em.
    + exfalso. apply Hq. reflexivity.
    + reflexivity.
    + simpl. destruct (Qltb 1 x) eqn:E.
      * unfold js_or; simpl. assert (E0 : Qis0 x = false) by (qbool; lra).
        rewrite E0. simpl. now rewrite E.
      * reflexivity.
    + reflexivity.
  - f_equal. apply sanitizeStores_fixed, sanitizeStores_shape.
Qed.
End Undo.

(** ** The combined selector *)

Lemma setView_same (st : AppState) :
  setFilterStatus (filterStatus st) (setSortCriteria (sortCriteria st) st) = st.
Proof. destruct st; reflexivity. Qed.

Lemma sort_choice (c : string) (st : AppState) :
  handleCombinedChange ("sort-" ++ c) st = setFilterStatus "All" (setSortCriteria c st).
Proof.
  unfold handleCombinedChange.
  assert (E1 : Str.startsWith ("sort-" ++ c) "filter-" = false) by reflexivity.
  assert (E2 : Str.startsWith ("sort-" ++ c) "sort-" = true)
    by (apply startsWith_spec; eauto).
  rewrite E1, E2. reflexivity.
Qed.

(** X12.  Choosing a sort always clears the status filter: after
    [handleCombinedChange] on a sort option the criterion is the chosen
    one and the filter is All, and the data is untouched.  The selector
    and its handler agree: the handler applied to the value shown for a
    state with one of the four filters gives that state back, and the
    value shown after choosing a sort option or one of the three status
    filters is that option. *)
Theorem selector_round_trip (st : AppState) :
  (forall c,
      let st' := handleCombinedChange ("sort-" ++ c) st in
      sortCriteria st' = c /\ filterStatus st' = "All"
      /\ searchTerm st' = searchTerm st /\ db st' = db st
      /\ items st' = items st /\ stores st' = stores st /\ receipts st' = receipts st
      /\ selectedValue st' = ("sort-" ++ c)%string)
  /\ (In (filterStatus st) ["All"; "Depleted"; "Running Low"; "Shopping Cart"] ->
      handleCombinedChange (selectedValue st) st = st)
  /\ (forall v, In v ["filter-depleted"; "filter-runninglow"; "filter-shoppingcart"] ->
                selectedValue (handleCombinedChange v st) = v)
  /\ selectedValue (handleCombinedChange "filter-all" st)
     = ("sort-" ++ sortCriteria st)%string.
Proof.
  split_and!.
  - intros c. cbv zeta. rewrite sort_choice. repeat split.
  - intros Hin. unfold selectedValue.
    destruct Hin as [E|[E|[E|[E|[]]]]]; rewrite <- E; simpl String.eqb; cbv iota.
    + rewrite sort_choice. rewrite E. apply setView_same.
    + destruct st; simpl in *; subst; reflexivity.
    + destruct st; simpl in *; subst; reflexivity.
    + destruct st; simpl in *; subst; reflexivity.
  - intros v [<-|[<-|[<-|[]]]]; reflexivity.
  - reflexivity.
Qed.

(** ** The price rows of the item form *)

Lemma filter_other_index_past {A : Type} (index i : nat) (l : list A) :
  (index < i)%nat -> filter_other_index index i l = l.
Proof.
  revert i. induction l as [|x l IH]; intros i Hlt; simpl; auto.
  assert (E : Nat.eqb i index = false) by (apply Nat.eqb_neq; lia).
  rewrite E, IH by lia. reflexivity.
Qed.

(** The index filter removes the element at [index] and nothing else. *)
Lemma filter_other_index_spec {A : Type} (n i : nat) (l : list A) :
  filter_other_index (i + n) i l = take n l ++ drop (S n) l.
Proof.
  revert n i. induction l as [|x l IH]; intros n i; simpl.
  - now destruct n.
  - destruct n as [|n].
    + rewrite Nat.add_0_r, Nat.eqb_refl. simpl. rewrite drop_0.
      apply filter_other_index_past. lia.
    + assert (E : Nat.eqb i (i + S n) = false) by (apply Nat.eqb_neq; lia).
      rewrite E. simpl. f_equal.
      replace (i + S n)%nat with (S i + n)%nat by lia. apply IH.
Qed.

Section Rows.
Context {builtins : Builtins}.

Lemma sanitizeStores_blank_row (rows : list StorePrice.t) :
  sanitizeStores (Some (rows ++ [StorePrice.mk "" (JStr "")]))
  = sanitizeStores (Some rows).
Proof.
  unfold sanitizeStores.
  change (default [] (Some (rows ++ [StorePrice.mk "" (JStr "")])))
    with (rows ++ [StorePrice.mk "" (JStr "")]).
  change (default [] (Some rows)) with rows.
  rewrite List.filter_app. simpl. now rewrite app_nil_r.
Qed.

(** X13.  An item never gets more than 10 price rows through the form:
    [handleAddStorePrice] on an item with at most 10 rows leaves at most
    10, does nothing at 10, and below 10 appends one empty row.  The
    empty row is not saved: the sanitizer makes the same rows of the item
    with and without it. *)
Theorem add_price_row_capped (item : Item.t) (rows : list StorePrice.t) :
  Item.stores item = Some rows ->
  (length rows <= MAX_STORES_PER_ITEM)%nat ->
  exists item' rows',
    handleAddStorePrice item = Some item'
    /\ Item.stores item' = Some rows'
    /\ (length rows' <= MAX_STORES_PER_ITEM)%nat
    /\ (length rows = MAX_STORES_PER_ITEM -> item' = item)
    /\ ((length rows < MAX_STORES_PER_ITEM)%nat ->
        rows' = rows ++ [StorePrice.mk "" (JStr "")])
    /\ sanitizeStores (Item.stores item') = sanitizeStores (Item.stores item)
    /\ item' = with_stores rows' item.
Proof.
  intros Hrows Hlen. unfold handleAddStorePrice. rewrite Hrows.
  destruct (MAX_STORES_PER_ITEM <=? length rows)%nat eqn:Hcap.
  - apply Nat.leb_le in Hcap. exists item, rows.
    split_and!; auto; try (intros; lia).
    all: destruct item; simpl in *; subst; reflexivity.
  - apply Nat.leb_gt in Hcap.
    exists (with_stores (rows ++ [StorePrice.mk "" (JStr "")]) item),
           (rows ++ [StorePrice.mk "" (JStr "")]).
    split_and!; auto; try (intros; lia).
    + rewrite length_app. simpl. lia.
    + apply sanitizeStores_blank_row.
Qed.
End Rows.

(** X14.  Removing a price row takes out the row at the given position
    and keeps the others in order: the rows before it stay where they
    are, the rows after it move up by one, and a position past the end
    removes nothing.  The rest of the item is untouched. *)
Theorem remove_price_row (index : nat) (prev : Item.t) (rows : list StorePrice.t) :
  Item.stores prev = Some rows ->
  exists rows',
    handleRemoveStorePrice index prev = Some (with_stores rows' prev)
    /\ rows' = take index rows ++ drop (S index) rows
    /\ (forall j, (j < index)%nat -> rows' !! j = rows !! j)
    /\ (forall j, (index <= j)%nat -> rows' !! j = rows !! (S j))
    /\ ((index < length rows)%nat -> S (length rows') = length rows)
    /\ ((length rows <= index)%nat -> rows' = rows).
Proof.
  intros Hrows. unfold handleRemoveStorePrice. rewrite Hrows.
  exists (filter_other_index index 0 rows).
  pose proof (filter_other_index_spec index 0 rows) as Hspec. simpl in Hspec.
  rewrite Hspec. split_and!; auto.
  - intros j Hj. destruct (Nat.le_gt_cases (length rows) index) as [Hge|Hlt].
    + rewrite take_ge, drop_ge, app_nil_r by lia. reflexivity.
    + rewrite lookup_app_l by (rewrite length_take; lia).
      now apply lookup_take_lt.
  - intros j Hj. destruct (Nat.le_gt_cases (length rows) index) as [Hge|Hlt].
    + rewrite take_ge, drop_ge, app_nil_r by lia.
      rewrite !lookup_ge_None_2 by lia. reflexivity.
    + rewrite lookup_app_r by (rewrite length_take; lia).
      rewrite length_take, lookup_drop. f_equal. lia.
  - intros Hlt. rewrite length_app, length_take, length_drop. lia.
  - intros Hge. rewrite take_ge, drop_ge, app_nil_r by lia. reflexivity.
Qed.

(** X15.  Typing into a row changes that row and that field only: for a
    row that exists, [handleUpdateStorePrice] keeps the number of rows,
    keeps every other row, and on the row itself sets the store name, or
    the price as the text typed, leaving the other field. *)
Theorem update_price_row (index : nat) (key : RowKey) (value : string)
        (prev : Item.t) (rows : list StorePrice.t) (row : StorePrice.t) :
  Item.stores prev = Some rows ->
  rows !! index = Some row ->
  exists rows' row',
    handleUpdateStorePrice index key value prev = Some (with_stores rows' prev)
    /\ length rows' = length rows
    /\ rows' !! index = Some row'
    /\ (forall j, j <> index -> rows' !! j = rows !! j)
    /\ match key with
       | storeNameKey =>
           StorePrice.storeName row' = value
           /\ StorePrice.price row' = StorePrice.price row
       | priceKey =>
           StorePrice.price row' = JStr value
           /\ StorePrice.storeName row' = StorePrice.storeName row
       end.
Proof.
  intros Hrows Hrow. unfold handleUpdateStorePrice. rewrite Hrows, Hrow.
  eexists _, _. split; [reflexivity|]. split_and!.
  - apply length_insert.
  - apply list_lookup_insert_eq. eapply lookup_lt_Some; eauto.
  - intros j Hj. apply list_lookup_insert_ne. auto.
  - destruct key; split; reflexivity.
Qed.

Lemma in_without_index {A : Type} (index : nat) (l : list A) (x : A) :
  In x (filter_other_index index 0 l)
  <-> exists j, j <> index /\ l !! j = Some x.
Proof.
  pose proof (filter_other_index_spec index 0 l) as Hspec. simpl in Hspec.
  rewrite Hspec, in_app_iff, <- !list_elem_of_In, !list_elem_of_lookup. split.
  - intros [[j Hj]|[j Hj]].
    + exists j. apply lookup_take_Some in Hj as [Hj Hlt]. split; [lia|auto].
    + exists (S index + j)%nat. rewrite lookup_drop in Hj. split; [lia|auto].
  - intros (j & Hne & Hj). destruct (Nat.lt_ge_cases j index) as [Hlt|Hge].
    + left. exists j. apply lookup_take_Some. auto.
    + right. exists (j - S index)%nat. rewrite lookup_drop.
      replace (S index + (j - S index))%nat with j by lia. exact Hj.
Qed.

(** X16.  The store choices offered on a row are the known stores whose
    name is not taken by another row: a store is offered on row
    [currentIndex] exactly when it is a listed store and no other row
    carries its name (rows without a name take nothing).  The name
    chosen on the row itself does not take it away. *)
Theorem available_store_options (currentIndex : nat) (allStores : list Store.t)
        (currentStores : list StorePrice.t) (s : Store.t) :
  In s (getAvailableStoreOptions currentIndex allStores currentStores)
  <-> In s allStores
      /\ ~ exists j row,
             j <> currentIndex /\ currentStores !! j = Some row
             /\ StorePrice.storeName row = Store.name s
             /\ Store.name s <> "".
Proof.
  unfold getAvailableStoreOptions. cbv zeta.
  rewrite filter_In, negb_true_iff, bool_decide_eq_false, elem_of_list_to_set.
  rewrite list_elem_of_In, filter_In, in_map_iff.
  split; intros [Hin Hno]; split; auto.
  - intros (j & row & Hj & Hrow & Hname & Hne). apply Hno. split.
    + exists row. split; auto. apply in_without_index. eauto.
    + destruct (truthy (JStr (Store.name s))) eqn:E; auto.
      apply truthy_string in E. contradiction.
  - intros [(row & Hname & Hrow) Ht]. apply Hno.
    apply in_without_index in Hrow as (j & Hj & Hrow).
    exists j, row. split_and!; auto.
    intros E. rewrite E in Ht. discriminate.
Qed.

(** ** The quantity field and the create button *)

Section FormFacts.
Context {builtins : Builtins} {host : HostBuiltins}.

(** X17.  Whatever is typed into the quantity field, the form holds a
    number that is not NaN and not below 1, and changes nothing else on
    the item; when [parseInt] reads an integer or nothing (NaN), the
    quantity is an integer of at least 1, which is what create and edit
    then receive. *)
Theorem quantity_field_floor (text : string) (localItem : Item.t) :
  let item' := handleQuantityChange text localItem in
  sameButQuantity item' localItem
  /\ (exists n, Item.quantity item' = JNum n /\ n <> NaN /\ num_lt n (Fin 1) = false)
  /\ (parseInt text = NaN \/ (exists z, parseInt text = of_Z z) ->
      wholeQuantity (Item.quantity item')
      /\ integralInput (Item.quantity item')).
Proof.
  cbv zeta. unfold handleQuantityChange. split_and!.
  - apply sameButQuantity_with.
  - eexists. split; [reflexivity|]. split; [|apply clamp_not_below].
    unfold Math_max, js_or. simpl (ToNumber one).
    destruct (parseInt text) as [| |x|]; simpl; try discriminate.
    + destruct (Qis0 x); simpl; [discriminate|]. destruct (Qltb 1 x); discriminate.
  - intros Hint.
    assert (Hin : integralInput (JNum (parseInt text))).
    { destruct Hint as [->|[z ->]]; [right; right; left; reflexivity|].
      right; right; right. eauto. }
    destruct (clamp_input _ Hin) as [z Hz]. simpl Item.quantity. rewrite Hz.
    split; [apply clamp_whole|]. right; right; right. eauto.
Qed.

(** X18.  The create button never adds an item without a name: with a
    blank name [handleCreate] does nothing, and any item it adds to the
    list carries the drawn id and a name that is not empty and has no
    outer white space. *)
Theorem create_needs_name (uuid : string) (localItem : Item.t) (st : AppState) :
  let st' := fst (AddItemModal_handleCreate uuid localItem st) in
  (blank (Item.name localItem) ->
   AddItemModal_handleCreate uuid localItem st = (st, []))
  /\ (forall item, In item (items st') ->
        In item (items st)
        \/ (Item.id item = uuid /\ Item.name item <> ""
            /\ trimmed (Item.name item)
            /\ Item.name item = Str.trim (Item.name localItem))).
Proof.
  cbv zeta. unfold AddItemModal_handleCreate. split.
  - intros Hb. now rewrite (trim_blank _ Hb).
  - destruct (truthy (JStr (Str.trim (Item.name localItem)))) eqn:Ht; simpl negb; cbv iota;
      [|intros item Hin; now left].
    unfold handleCreateItem.
    match goal with |- context [addItemDB ?it _] => set (newItem := it) end.
    destruct (addItemDB newItem (db st)) as [d|]; simpl; [|intros item Hin; now left].
    intros item Hin. apply in_app_iff in Hin as [Hin|[<-|[]]]; [now left|right].
    simpl. split_and!; auto.
    + intros E. rewrite E in Ht. discriminate.
    + apply trim_idem.
Qed.
End FormFacts.

(** ** Deleting items and receipts *)

Section Deletes.
Context {builtins : Builtins}.

End Deletes.

(** X20.  A receipt is deleted only on confirmation: when the user
    declines, [handleDeleteReceipt] returns the state as it is and logs
    nothing.  On confirmation with the database available it removes the
    receipts with that id from the list and the key from the receipt
    collection, keeps the other receipts in their order, and leaves items
    and stores alone. *)
Theorem delete_receipt_confirmed (isConfirmed : bool) (receiptId : string) (st : AppState) :
  let st' := fst (handleDeleteReceipt isConfirmed receiptId st) in
  (isConfirmed = false -> handleDeleteReceipt isConfirmed receiptId st = (st, []))
  /\ (isConfirmed = true -> IDB.available (db st) = true ->
      receipts st'
      = List.filter (fun r => negb (String.eqb (Receipt.id r) receiptId)) (receipts st)
      /\ (forall r, In r (receipts st') <-> In r (receipts st) /\ Receipt.id r <> receiptId)
      /\ IDB.RECEIPT_STORE (db st') = base.delete receiptId (IDB.RECEIPT_STORE (db st))
      /\ items st' = items st /\ stores st' = stores st
      /\ IDB.ITEM_STORE (db st') = IDB.ITEM_STORE (db st)
      /\ IDB.STORE_STORE (db st') = IDB.STORE_STORE (db st)).
Proof.
  cbv zeta. unfold handleDeleteReceipt. split.
  - intros ->. reflexivity.
  - intros -> Hav. simpl negb. cbv iota.
    unfold deleteReceiptDB, IDB.onReceipts. rewrite Hav. simpl.
    split_and!; auto.
    intros r. rewrite filter_In, negb_true_iff, String.eqb_neq. tauto.
Qed.

(** ** Import: what is written when *)

Section CommitFacts.
Context {R : Type} (keyPath : R -> string).

Lemma commit_adds_taken (l : list R) (m : gmap string R) (r : R) :
  In r l -> m !! keyPath r <> None ->
  IDB.commit keyPath (map IDB.add l) m = None.
Proof.
  revert m. induction l as [|x l IH]; intros m Hin Htaken; [destruct Hin|].
  simpl. destruct (m !! keyPath x) eqn:Hx; auto.
  destruct Hin as [->|Hin]; [contradiction|].
  apply IH; auto.
  destruct (String.eqb_spec (keyPath x) (keyPath r)) as [E|Hne].
  - rewrite E, lookup_insert_eq. discriminate.
  - rewrite lookup_insert_ne by exact Hne. exact Htaken.
Qed.


Lemma commit_adds_inv (l : list R) (m m' : gmap string R) :
  IDB.commit keyPath (map IDB.add l) m = Some m' ->
  m' = keyed keyPath l ∪ m.
Proof.
  revert m. induction l as [|x l IH]; intros m; simpl.
  - intros [= <-]. unfold keyed; simpl. now rewrite (left_id ∅ (∪)).
  - destruct (m !! keyPath x) eqn:Hx; [discriminate|]. intros Hc.
    assert (Hfresh : keyed keyPath l !! keyPath x = None).
    { destruct (keyed keyPath l !! keyPath x) eqn:Hk; auto. exfalso.
      rewrite keyed_lookup_find in Hk. apply find_some in Hk as [Hin Hr0].
      apply String.eqb_eq in Hr0.
      rewrite (commit_adds_taken l _ r Hin) in Hc; [discriminate|].
      rewrite Hr0, lookup_insert_eq. discriminate. }
    apply IH in Hc. subst m'. rewrite keyed_cons.
    now rewrite <- insert_union_l, <- insert_union_r.
Qed.

Lemma commit_replace_inv (l : list R) (m m' : gmap string R) :
  IDB.commit keyPath (IDB.clear :: map IDB.add l) m = Some m' ->
  m' = keyed keyPath l.
Proof.
  simpl. intros Hc. apply commit_adds_inv in Hc. subst m'.
  now rewrite (right_id ∅ (∪)).
Qed.
End CommitFacts.

Section ImportOrder.
Context {builtins : Builtins}.

(** X21.  The list in memory is replaced only once all three collections
    are written: after any import event, either the three lists in memory
    are the ones from before, or each collection of the database holds
    exactly the records of the new list of its kind. *)
Theorem import_memory_follows_store (event : ImportEvent) (st : AppState) :
  let st' := fst (handleImportData event st) in
  (items st' = items st /\ stores st' = stores st /\ receipts st' = receipts st)
  \/ (IDB.ITEM_STORE (db st') = keyed Item.id (items st')
      /\ IDB.STORE_STORE (db st') = keyed Store.id (stores st')
      /\ IDB.RECEIPT_STORE (db st') = keyed Receipt.id (receipts st')).
Proof.
  cbv zeta. destruct event as [| |result]; simpl; auto.
  unfold importBody. destruct (validate result) as [[[its sts] rcs]|]; [|left; auto].
  unfold Try.bind, Try.await, Try.ret, IDB.onItems, IDB.onStores, IDB.onReceipts.
  destruct (IDB.available (db st)); [|left; auto].
  destruct (IDB.commit Item.id _ (IDB.ITEM_STORE (db st))) as [m1|] eqn:E1;
    [|left; auto].
  cbn [IDB.available IDB.ITEM_STORE IDB.STORE_STORE IDB.RECEIPT_STORE].
  destruct (IDB.commit Store.id _ (IDB.STORE_STORE (db st))) as [m2|] eqn:E2;
    [|left; auto].
  cbn [IDB.available IDB.ITEM_STORE IDB.STORE_STORE IDB.RECEIPT_STORE].
  destruct (IDB.commit Receipt.id _ (IDB.RECEIPT_STORE (db st))) as [m3|] eqn:E3;
    [|left; auto].
  right. simpl.
  apply commit_replace_inv in E1, E2, E3. auto.
Qed.


End ImportOrder.

(** ** Ordered views *)

Lemma string_le_trans (a b c : string) :
  (a ?= b)%string <> Gt -> (b ?= c)%string <> Gt -> (a ?= c)%string <> Gt.
Proof.
  revert b c. induction a as [|x a IH]; intros [|y b] [|z c]; simpl; try congruence.
  unfold Ascii.compare.
  destruct (N.compare_spec (N_of_ascii x) (N_of_ascii y)),
           (N.compare_spec (N_of_ascii y) (N_of_ascii z)),
           (N.compare_spec (N_of_ascii x) (N_of_ascii z));
    try lia; try congruence; auto.
  apply IH.
Qed.

Lemma ltb_false_iff (a b : string) :
  String.ltb b a = false <-> (a ?= b)%string <> Gt.
Proof.
  unfold String.ltb. rewrite (String.compare_antisym b a).
  destruct (a ?= b)%string; simpl; split; intros; congruence.
Qed.

Lemma ltb_asym (a b : string) : String.ltb a b = true -> String.ltb b a = false.
Proof.
  unfold String.ltb. rewrite (String.compare_antisym b a).
  destruct (a ?= b)%string; simpl; congruence.
Qed.

Lemma ltb_irrefl (a : string) : String.ltb a a = false.
Proof.
  destruct (String.ltb a a) eqn:E; auto. apply ltb_asym in E as E'. congruence.
Qed.

Lemma ltb_le_trans (a b c : string) :
  String.ltb b a = false -> String.ltb c b = false -> String.ltb c a = false.
Proof. rewrite !ltb_false_iff. apply string_le_trans. Qed.

Lemma compareStrings_asc (x y : string) :
  num_gt (compareStrings (Fin 1) x y) (Fin 0) = String.ltb y x.
Proof.
  unfold compareStrings. destruct (String.ltb x y) eqn:Hxy.
  - rewrite (ltb_asym _ _ Hxy). reflexivity.
  - destruct (String.ltb y x); reflexivity.
Qed.

Lemma compareStrings_desc (x y : string) :
  num_gt (compareStrings (Fin (-1)) x y) (Fin 0) = String.ltb x y.
Proof.
  unfold compareStrings. destruct (String.ltb x y) eqn:Hxy; [reflexivity|].
  destruct (String.ltb y x); reflexivity.
Qed.

Lemma compareStrings_same (d : num) (x : string) :
  num_gt (compareStrings d x x) (Fin 0) = false.
Proof. unfold compareStrings. now rewrite ltb_irrefl. Qed.

Lemma StronglySorted_weaken {A : Type} (R S : A -> A -> Prop) (l : list A) :
  (forall x y, R x y -> S x y) -> StronglySorted R l -> StronglySorted S l.
Proof.
  intros HRS. induction 1 as [|x l Hs IH Hall]; constructor; auto.
  eapply List.Forall_impl; [|exact Hall]. apply HRS.
Qed.

Section OrderSort.
Context {A : Type} (compare : A -> A -> num) (P : A -> Prop).
Hypothesis asym : forall x y, P x -> P y -> ~ inOrder compare x y -> inOrder compare y x.
Hypothesis negtrans : forall x y z, P x -> P y -> P z ->
  inOrder compare x y -> inOrder compare y z -> inOrder compare x z.

Lemma sort_insert_ordered (x : A) (l : list A) :
  P x -> Forall P l ->
  StronglySorted (inOrder compare) l ->
  StronglySorted (inOrder compare) (sort_insert compare x l).
Proof.
  intros Hx Hl Hs. induction l as [|y l IH]; cbn [sort_insert].
  - repeat constructor.
  - inversion Hl as [|? ? Hy Hl']; subst.
    apply StronglySorted_inv in Hs as [Hs Hall].
    destruct (num_gt (compare x y) (Fin 0)) eqn:Hxy.
    + constructor; [now apply IH|].
      apply (Permutation_Forall (x := x :: l));
        [symmetry; apply sort_insert_perm|].
      constructor; auto. apply asym; auto. unfold inOrder. congruence.
    + constructor; [constructor; auto|].
      constructor; [exact Hxy|].
      rewrite List.Forall_forall in *. intros z Hz.
      apply (negtrans x y z); auto.
Qed.

Lemma Array_sort_ordered (l : list A) :
  Forall P l -> StronglySorted (inOrder compare) (Array_sort compare l).
Proof.
  induction l as [|x l IH]; intros Hl; cbn [Array_sort]; [constructor|].
  inversion Hl; subst. apply sort_insert_ordered; auto.
  apply (Permutation_Forall (x := l)); [symmetry; apply Array_sort_perm|auto].
Qed.
End OrderSort.

Section TextSort.
Context {builtins : Builtins}.

Lemma text_sort_asc (key : Item.t -> string) (l : list Item.t) :
  StronglySorted (fun x y => String.ltb (key y) (key x) = false)
                 (Array_sort (fun a b => compareStrings (Fin 1) (key a) (key b)) l).
Proof.
  eapply StronglySorted_weaken;
    [|apply (Array_sort_ordered _ (fun _ => True))].
  - intros x y. unfold inOrder. now rewrite compareStrings_asc.
  - intros x y _ _. unfold inOrder. rewrite !compareStrings_asc.
    intros H. apply ltb_asym. now destruct (String.ltb (key y) (key x)).
  - intros x y z _ _ _. unfold inOrder. rewrite !compareStrings_asc.
    apply ltb_le_trans.
  - rewrite List.Forall_forall. auto.
Qed.

Lemma text_sort_desc (key : Item.t -> string) (l : list Item.t) :
  StronglySorted (fun x y => String.ltb (key x) (key y) = false)
                 (Array_sort (fun a b => compareStrings (Fin (-1)) (key a) (key b)) l).
Proof.
  eapply StronglySorted_weaken;
    [|apply (Array_sort_ordered _ (fun _ => True))].
  - intros x y. unfold inOrder. now rewrite compareStrings_desc.
  - intros x y _ _. unfold inOrder. rewrite !compareStrings_desc.
    intros H. apply ltb_asym. now destruct (String.ltb (key x) (key y)).
  - intros x y z _ _ _. unfold inOrder. rewrite !compareStrings_desc.
    intros H1 H2. exact (ltb_le_trans _ _ _ H2 H1).
  - rewrite List.Forall_forall. auto.
Qed.

Lemma text_sort_stable (d : num) (key : Item.t -> string) (n : string) (l : list Item.t) :
  List.filter (fun a => String.eqb (key a) n)
              (Array_sort (fun a b => compareStrings d (key a) (key b)) l)
  = List.filter (fun a => String.eqb (key a) n) l.
Proof.
  apply Array_sort_stable. intros a b Ha Hb.
  apply String.eqb_eq in Ha, Hb. rewrite Ha, Hb. apply compareStrings_same.
Qed.

(** X24.  The sorts by name, category and store compare the lower-cased
    texts: the ascending result is a rearrangement of the list in which no
    item is followed by one with a smaller text, the descending result one
    in which no item is followed by one with a greater text, and items
    with the same text keep the order they had, in both directions. *)
Theorem text_sort_ordered (criterion : string) (key : Item.t -> string)
        (l : list Item.t) :
  In (criterion, key) textKeys ->
  Permutation (sorted (criterion ++ "-asc") l) l
  /\ Permutation (sorted (criterion ++ "-desc") l) l
  /\ StronglySorted (fun x y => String.ltb (key y) (key x) = false)
                    (sorted (criterion ++ "-asc") l)
  /\ StronglySorted (fun x y => String.ltb (key x) (key y) = false)
                    (sorted (criterion ++ "-desc") l)
  /\ (forall n,
        List.filter (fun a => String.eqb (key a) n) (sorted (criterion ++ "-asc") l)
        = List.filter (fun a => String.eqb (key a) n) l)
  /\ (forall n,
        List.filter (fun a => String.eqb (key a) n) (sorted (criterion ++ "-desc") l)
        = List.filter (fun a => String.eqb (key a) n) l).
Proof.
  intros Hin.
  assert (Hasc : sorted (criterion ++ "-asc") l
                 = Array_sort (fun a b => compareStrings (Fin 1) (key a) (key b)) l).
  { destruct Hin as [E|[E|[E|[]]]]; inversion E; subst; reflexivity. }
  assert (Hdesc : sorted (criterion ++ "-desc") l
                  = Array_sort (fun a b => compareStrings (Fin (-1)) (key a) (key b)) l).
  { destruct Hin as [E|[E|[E|[]]]]; inversion E; subst; reflexivity. }
  rewrite Hasc, Hdesc. split_and!.
  - apply Array_sort_perm.
  - apply Array_sort_perm.
  - apply text_sort_asc.
  - apply text_sort_desc.
  - intros n. apply text_sort_stable.
  - intros n. apply text_sort_stable.
Qed.

Lemma statusRank_recognised (a : Item.t) : recognised a -> statusRank a <> NaN.
Proof.
  unfold recognised, statusRank, STATUS_CYCLE.
  intros [E|[E|[E|[]]]]; rewrite <- E; discriminate.
Qed.

(** X25.  The ascending sort by status puts Depleted before Running Low
    before Home Stocked: for items with these statuses the result is a
    rearrangement ordered by rank, so nothing Depleted follows an item of
    another status and only Home Stocked items follow a Home Stocked one.
    Items of one status keep the order they had. *)
Theorem status_sort_ordered (l : list Item.t) :
  Forall recognised l ->
  Permutation (sorted "status-asc" l) l
  /\ StronglySorted (fun x y => num_lt (statusRank y) (statusRank x) = false)
                    (sorted "status-asc" l)
  /\ (forall l1 x l2,
        sorted "status-asc" l = l1 ++ x :: l2 ->
        (Item.status x <> "Depleted" ->
         Forall (fun y => Item.status y <> "Depleted") l2)
        /\ (Item.status x = "Home Stocked" ->
            Forall (fun y => Item.status y = "Home Stocked") l2))
  /\ (forall s,
        List.filter (fun a => String.eqb (Item.status a) s) (sorted "status-asc" l)
        = List.filter (fun a => String.eqb (Item.status a) s) l).
Proof.
  intros Hrec.
  assert (Hsort : sorted "status-asc" l = Array_sort (byKey statusRank) l)
    by reflexivity.
  assert (Hperm : Permutation (sorted "status-asc" l) l).
  { rewrite Hsort. apply Array_sort_perm. }
  assert (Hsorted : StronglySorted (notAbove statusRank) (sorted "status-asc" l)).
  { rewrite Hsort. apply Array_sort_sorted.
    eapply List.Forall_impl; [|exact Hrec]. apply statusRank_recognised. }
  split_and!; auto.
  - intros l1 x l2 Hsplit.
    assert (Hall : Forall recognised (l1 ++ x :: l2)).
    { rewrite <- Hsplit. apply (Permutation_Forall (x := l)); auto. now symmetry. }
    rewrite Hsplit in Hsorted. apply sorted_split in Hsorted.
    apply Forall_app in Hall as [_ Hall]. inversion Hall as [|? ? Hx H2]; subst.
    split; intros Hsx; rewrite List.Forall_forall in *; intros y Hy;
      specialize (Hsorted y Hy); specialize (H2 y Hy);
      unfold notAbove, statusRank, recognised, STATUS_CYCLE in *;
      destruct Hx as [Ex|[Ex|[Ex|[]]]]; destruct H2 as [Ey|[Ey|[Ey|[]]]];
      rewrite <- Ex, <- Ey in *; try congruence; try discriminate.
  - intros s. rewrite Hsort. apply Array_sort_stable. intros a b Ha Hb.
    apply String.eqb_eq in Ha, Hb. unfold byKey, statusRank. rewrite Ha, Hb.
    unfold statusOrder.
    destruct (String.eqb s "Depleted"); [reflexivity|].
    destruct (String.eqb s "Running Low"); [reflexivity|].
    destruct (String.eqb s "Home Stocked"); reflexivity.
Qed.
End TextSort.

(** ** The visible list and its total *)

Section View.
Context {builtins : Builtins}.

Lemma visible_as_filter (st : AppState) :
  exists keep : Item.t -> bool,
    Permutation (filteredAndSortedItems st) (List.filter keep (items st))
    /\ (showsAll st -> forall item, keep item = true).
Proof.
  unfold filteredAndSortedItems, sorted. cbv zeta.
  assert (Hs : exists p, searchFiltered (searchTerm st) (items st)
                         = List.filter p (items st)
                         /\ (blank (searchTerm st) -> forall item, p item = true)).
  { unfold searchFiltered. cbv zeta. rewrite trim_lower.
    destruct (truthy (JStr _)) eqn:Ht.
    - eexists. split; [reflexivity|]. intros Hb.
      rewrite (trim_blank _ Hb) in Ht. discriminate.
    - exists (fun _ => true). split; auto.
      clear. induction (items st) as [|x l IH]; simpl; congruence. }
  destruct Hs as (p & -> & Hp).
  assert (Hf : exists q, forall l, statusFiltered (filterStatus st) l = List.filter q l
                         /\ (filterStatus st <> "Depleted" ->
                             filterStatus st <> "Running Low" ->
                             filterStatus st <> "Shopping Cart" ->
                             forall item, q item = true)).
  { unfold statusFiltered.
    destruct (String.eqb_spec (filterStatus st) "Depleted");
      [eexists; intros l; split; [reflexivity|contradiction]|].
    destruct (String.eqb_spec (filterStatus st) "Running Low");
      [eexists; intros l; split; [reflexivity|contradiction]|].
    destruct (String.eqb_spec (filterStatus st) "Shopping Cart");
      [eexists; intros l; split; [reflexivity|contradiction]|].
    exists (fun _ => true). intros l. split; auto.
    induction l as [|x l IH]; simpl; congruence. }
  destruct Hf as (q & Hq).
  exists (fun item => p item && q item). split.
  - rewrite Array_sort_perm. rewrite (proj1 (Hq _)).
    clear. induction (items st) as [|x l IH]; simpl; auto.
    destruct (p x); simpl; auto. destruct (q x); simpl; auto.
  - intros (Hb & H1 & H2 & H3) item.
    now rewrite (Hp Hb), (proj2 (Hq []) H1 H2 H3).
Qed.

(** X26.  The visible list is a selection of the items: it is never
    longer than the item list, keeps ids unique when they are, and holds
    only listed items.  With a blank search term and a status filter other
    than the three selective ones it is a rearrangement of all the
    items. *)
Theorem visible_is_selection (st : AppState) :
  (totalVisibleItemCount st <= length (items st))%nat
  /\ (forall item, In item (filteredAndSortedItems st) -> In item (items st))
  /\ (NoDup (map Item.id (items st)) ->
      NoDup (map Item.id (filteredAndSortedItems st)))
  /\ (showsAll st -> Permutation (filteredAndSortedItems st) (items st)).
Proof.
  destruct (visible_as_filter st) as (keep & Hperm & Hall).
  unfold totalVisibleItemCount. split_and!.
  - rewrite (Permutation_length Hperm). apply List.filter_length_le.
  - intros item Hin. apply (Permutation_in _ Hperm) in Hin.
    now apply filter_In in Hin as [Hin _].
  - intros Hnd. apply (NoDup_map_filter Item.id keep) in Hnd.
    now rewrite (Permutation_map Item.id Hperm).
  - intros Hshow. rewrite Hperm.
    specialize (Hall Hshow). clear - Hall.
    induction (items st) as [|x l IH]; simpl; auto. now rewrite Hall, IH.
Qed.


End View.

(** ** Receipts *)

Section ReceiptFacts.
Context {builtins : Builtins}.

(** X28.  The receipt collection and the receipt list stay in step: when
    the collection holds exactly the listed receipts, each id once, it
    still does after any [handleLogReceipt] and after any
    [handleDeleteReceipt], whether the write commits, fails or is not
    attempted. *)
Theorem receipts_stay_synced (st : AppState) :
  IDB.RECEIPT_STORE (db st) = keyed Receipt.id (receipts st) ->
  NoDup (map Receipt.id (receipts st)) ->
  (forall uuid now,
      let st' := fst (handleLogReceipt uuid now st) in
      IDB.RECEIPT_STORE (db st') = keyed Receipt.id (receipts st')
      /\ NoDup (map Receipt.id (receipts st')))
  /\ (forall isConfirmed receiptId,
        let st' := fst (handleDeleteReceipt isConfirmed receiptId st) in
        IDB.RECEIPT_STORE (db st') = keyed Receipt.id (receipts st')
        /\ NoDup (map Receipt.id (receipts st'))).
Proof.
  intros Hsync Hnd. split.
  - intros uuid now. cbv zeta. unfold handleLogReceipt.
    destruct (totalVisibleItemCount st =? 0)%nat; [now split|].
    unfold addReceiptDB, IDB.onReceipts.
    destruct (IDB.available (db st)); [|now split].
    simpl IDB.commit. cbn [Receipt.id].
    destruct (IDB.RECEIPT_STORE (db st) !! uuid) eqn:Hk; [now split|].
    simpl. split.
    + now rewrite Hsync, keyed_cons.
    + apply NoDup_cons. split; auto.
      rewrite Hsync in Hk. apply (keyed_fresh_not_in Receipt.id) in Hk.
      intros Hin. apply Hk. now apply list_elem_of_In.
  - intros isConfirmed receiptId. cbv zeta.
    unfold handleDeleteReceipt, deleteReceiptDB, IDB.onReceipts.
    destruct (negb isConfirmed); [now split|].
    destruct (IDB.available (db st)); [|now split].
    simpl. split.
    + rewrite Hsync. symmetry. apply keyed_filter_delete.
    + now apply NoDup_map_filter.
Qed.

Lemma snapshot_lines (l : list Item.t) :
  Forall2 snapshotOf
          (map (fun item =>
                  let cheapest := getCheapestOption item in
                  Line.mk (Item.id item) (Item.name item) (Item.quantity item)
                          (Cheapest.price cheapest) (Cheapest.storeName cheapest)
                          (Item.status item))
               l)
          l.
Proof.
  induction l as [|a l IH]; simpl; constructor; auto.
  repeat split.
Qed.

(** X29.  Logging a receipt never touches the items or the stores, and
    adds at most one receipt, at the head of the list.  The receipt it
    adds has the drawn id and the given time, one line per visible item in
    the displayed order, each the snapshot of its item, a count equal to
    the number of its lines and at least 1, and the estimated total as its
    total.  This happens whenever the database is available, the id is
    not yet a key and something is visible. *)
Theorem logged_receipt_snapshot (uuid now : string) (st : AppState) :
  let st' := fst (handleLogReceipt uuid now st) in
  let logged := fun r : Receipt.t =>
    receipts st' = r :: receipts st
    /\ IDB.RECEIPT_STORE (db st') = <[uuid := r]> (IDB.RECEIPT_STORE (db st))
    /\ Receipt.id r = uuid /\ Receipt.timestamp r = now
    /\ Forall2 snapshotOf (Receipt.items r) (filteredAndSortedItems st)
    /\ Receipt.itemCount r = length (Receipt.items r)
    /\ (1 <= Receipt.itemCount r)%nat
    /\ Receipt.estimatedTotal r = JNum (totalEstimatedCost st) in
  items st' = items st /\ stores st' = stores st
  /\ IDB.ITEM_STORE (db st') = IDB.ITEM_STORE (db st)
  /\ IDB.STORE_STORE (db st') = IDB.STORE_STORE (db st)
  /\ (st' = st \/ exists r, logged r)
  /\ (IDB.available (db st) = true ->
      IDB.RECEIPT_STORE (db st) !! uuid = None ->
      (0 < totalVisibleItemCount st)%nat ->
      exists r, logged r).
Proof.
  cbv zeta. unfold handleLogReceipt.
  destruct (totalVisibleItemCount st =? 0)%nat eqn:Hcount.
  { apply Nat.eqb_eq in Hcount. split_and!; auto. intros _ _ H. lia. }
  apply Nat.eqb_neq in Hcount.
  match goal with |- context [addReceiptDB ?r _] => set (receipt := r) end.
  unfold addReceiptDB, IDB.onReceipts.
  destruct (IDB.available (db st)) eqn:Hav;
    [|split_and!; auto; intros; discriminate].
  simpl IDB.commit. change (Receipt.id receipt) with uuid.
  destruct (IDB.RECEIPT_STORE (db st) !! uuid) eqn:Hk;
    [split_and!; auto; intros; discriminate|].
  simpl.
  assert (Hlogged : exists r : Receipt.t,
             receipt :: receipts st = r :: receipts st
             /\ <[uuid := receipt]> (IDB.RECEIPT_STORE (db st))
                = <[uuid := r]> (IDB.RECEIPT_STORE (db st))
             /\ Receipt.id r = uuid /\ Receipt.timestamp r = now
             /\ Forall2 snapshotOf (Receipt.items r) (filteredAndSortedItems st)
             /\ Receipt.itemCount r = length (Receipt.items r)
             /\ (1 <= Receipt.itemCount r)%nat
             /\ Receipt.estimatedTotal r = JNum (totalEstimatedCost st)).
  { exists receipt. split_and!; auto.
    - apply snapshot_lines.
    - unfold receipt. cbn [Receipt.itemCount Receipt.items].
      now rewrite length_map.
    - unfold receipt. cbn [Receipt.itemCount].
      unfold totalVisibleItemCount in Hcount. lia. }
  split_and!; auto.
Qed.
End ReceiptFacts.

Lemma newest_first_gt (a b : num) :
  num_gt (num_sub b a) (Fin 0) = num_lt a b.
Proof.
  destruct a as [| |x|], b as [| |y|]; try reflexivity.
  unfold num_sub, num_gt; simpl.
  destruct (Qltb x y) eqn:E; qbool; lra.
Qed.

Lemma StronglySorted_filter {A : Type} (R : A -> A -> Prop) (p : A -> bool)
      (l : list A) :
  StronglySorted R l -> StronglySorted R (List.filter p l).
Proof.
  induction 1 as [|x l Hs IH Hall]; simpl; [constructor|].
  destruct (p x); auto. constructor; auto.
  rewrite List.Forall_forall in *. intros y Hy. apply Hall.
  now apply filter_In in Hy as [Hy _].
Qed.

Section ReceiptList.
Context {builtins : Builtins} {host : HostBuiltins}.

(** X30.  The receipt list shows exactly the receipts that pass both
    selections, where 'all' passes everything and any other selection
    passes the receipts whose year, or month counted from 1, strictly
    equals the parsed selection; so a selection that does not parse shows
    nothing.  Without a selection it is a rearrangement of all receipts.
    When every time stamp is a valid date the list is newest first: no
    receipt is followed by a newer one. *)
Theorem receipt_list_newest_first (receipts : list Receipt.t)
        (selectedYear selectedMonth : string) :
  let out := filteredAndSortedReceipts receipts selectedYear selectedMonth in
  (forall r,
      In r out
      <-> In r receipts
          /\ (selectedYear = "all"
              \/ strict_equal (getFullYear (Receipt.timestamp r))
                              (parseInt10 selectedYear) = true)
          /\ (selectedMonth = "all"
              \/ strict_equal (getMonth (Receipt.timestamp r))
                              (num_sub (parseInt10 selectedMonth) (Fin 1)) = true))
  /\ (length out <= length receipts)%nat
  /\ (selectedYear = "all" -> selectedMonth = "all" -> Permutation out receipts)
  /\ (parseInt10 selectedYear = NaN -> selectedYear <> "all" -> out = [])
  /\ (Forall (fun r => dateValue (Receipt.timestamp r) <> NaN) receipts ->
      StronglySorted (fun x y => num_lt (dateValue (Receipt.timestamp x))
                                        (dateValue (Receipt.timestamp y)) = false)
                     out).
Proof.
  cbv zeta. unfold filteredAndSortedReceipts. cbv zeta.
  set (byYear := fun receipt : Receipt.t =>
                   strict_equal (getFullYear (Receipt.timestamp receipt))
                                (parseInt10 selectedYear)).
  set (byMonth := fun receipt : Receipt.t =>
                    strict_equal (getMonth (Receipt.timestamp receipt))
                                 (num_sub (parseInt10 selectedMonth) (Fin 1))).
  assert (Hsorted : Forall (fun r => dateValue (Receipt.timestamp r) <> NaN) receipts ->
                    StronglySorted
                      (fun x y => num_lt (dateValue (Receipt.timestamp x))
                                         (dateValue (Receipt.timestamp y)) = false)
                      (Array_sort newestFirst receipts)).
  { intros Hvalid.
    eapply StronglySorted_weaken;
      [|apply (Array_sort_ordered newestFirst
                 (fun r => dateValue (Receipt.timestamp r) <> NaN))]; auto.
    - intros x y. unfold inOrder, newestFirst. now rewrite newest_first_gt.
    - intros x y _ _. unfold inOrder, newestFirst. rewrite !newest_first_gt.
      intros H. apply num_lt_asym. now destruct (num_lt _ _).
    - intros x y z Hx Hy Hz. unfold inOrder, newestFirst. rewrite !newest_first_gt.
      intros H1 H2. apply (num_lt_total_trans _ (dateValue (Receipt.timestamp y))); auto. }
  destruct (String.eqb_spec selectedYear "all") as [Hy|Hy];
    destruct (String.eqb_spec selectedMonth "all") as [Hm|Hm]; cbn [negb].
  - split_and!.
    + intros r. rewrite Array_sort_In. tauto.
    + now rewrite (Permutation_length (Array_sort_perm newestFirst receipts)).
    + intros _ _. apply Array_sort_perm.
    + intros _ H. contradiction.
    + exact Hsorted.
  - split_and!.
    + intros r. rewrite filter_In, Array_sort_In. fold (byMonth r). tauto.
    + etransitivity; [apply List.filter_length_le|].
      now rewrite (Permutation_length (Array_sort_perm newestFirst receipts)).
    + intros _ H. contradiction.
    + intros _ H. contradiction.
    + intros Hvalid. apply StronglySorted_filter. auto.
  - split_and!.
    + intros r. rewrite filter_In, Array_sort_In. fold (byYear r). tauto.
    + etransitivity; [apply List.filter_length_le|].
      now rewrite (Permutation_length (Array_sort_perm newestFirst receipts)).
    + intros H. contradiction.
    + intros Hnan _. apply filter_nil_Forall. rewrite List.Forall_forall.
      intros r _. unfold byYear. rewrite Hnan.
      destruct (getFullYear (Receipt.timestamp r)); reflexivity.
    + intros Hvalid. apply StronglySorted_filter. auto.
  - split_and!.
    + intros r. rewrite !filter_In, Array_sort_In. fold (byYear r) (byMonth r). tauto.
    + etransitivity; [apply List.filter_length_le|].
      etransitivity; [apply List.filter_length_le|].
      now rewrite (Permutation_length (Array_sort_perm newestFirst receipts)).
    + intros H. contradiction.
    + intros Hnan _.
      assert (E : List.filter byYear (Array_sort newestFirst receipts) = []).
      { apply filter_nil_Forall. rewrite List.Forall_forall.
        intros r _. unfold byYear. rewrite Hnan.
        destruct (getFullYear (Receipt.timestamp r)); reflexivity. }
      now rewrite E.
    + intros Hvalid. do 2 apply StronglySorted_filter. auto.
Qed.
End ReceiptList.

(** ** The further properties at work *)

Lemma add_store_bounded_witness :
  (length (stores Fixture.shop) <= MAX_REUSABLE_STORES)%nat
  /\ (length (stores (fst (fst (handleAddStore "s-3" "C" Fixture.shop))))
      <= MAX_REUSABLE_STORES)%nat.
Proof.
  assert (H : (length (stores Fixture.shop) <= MAX_REUSABLE_STORES)%nat)
    by (vm_compute; lia).
  split; [exact H|].
  exact (proj1 (add_store_bounded "s-3" "C" Fixture.shop H)).
Defined.

Lemma add_store_appends_witness :
  stores (fst (fst (handleAddStore "s-3" " C " Fixture.shop)))
  = stores Fixture.shop ++ [Store.mk "s-3" "C"].
Proof.
  refine (proj1 (add_store_appends "s-3" " C " Fixture.shop _ _ eq_refl eq_refl)).
  - vm_compute. lia.
  - vm_compute. discriminate.
Defined.

Lemma stores_stay_synced_witness :
  IDB.STORE_STORE (db Fixture.shop) = keyed Store.id (stores Fixture.shop)
  /\ IDB.STORE_STORE (db (fst (handleDeleteStore "s-1" Fixture.shop)))
     = keyed Store.id [Fixture.bio].
Proof.
  assert (H : IDB.STORE_STORE (db Fixture.shop) = keyed Store.id (stores Fixture.shop))
    by reflexivity.
  split; [exact H|].
  exact (proj2 (stores_stay_synced Fixture.shop H) "s-1").
Defined.


Lemma item_store_stays_synced_witness :
  let ops := [OpCreate "i-7" Sample.eggs;
              OpEdit (Item.with_status "Depleted" Sample.bread);
              OpDelta "i-1" true;
              OpCycle "i-2";
              OpDelete "i-1"] in
  synced Sample.pantry
  /\ editsListed (builtins := decimalBuiltins) ops Sample.pantry
  /\ synced (run (builtins := decimalBuiltins) ops Sample.pantry).
Proof.
  cbv zeta.
  match goal with |- _ /\ editsListed ?l _ /\ _ => set (ops := l) end.
  assert (Hst : synced Sample.pantry).
  { split; [reflexivity|]. exact (proj1 (proj2 sample_model_pantry)). }
  assert (Hops : editsListed (builtins := decimalBuiltins) ops Sample.pantry).
  { unfold ops. cbn [editsListed]. split_and!; try exact I.
    vm_compute. right. left. reflexivity. }
  split; [exact Hst|]. split; [exact Hops|].
  exact (item_store_stays_synced (builtins := decimalBuiltins) ops Sample.pantry Hst Hops).
Defined.

Lemma edit_unlisted_item_only_stored_witness :
  items (fst (handleUpdateItem (builtins := decimalBuiltins) Sample.eggs Sample.pantry))
  = items Sample.pantry
  /\ IDB.ITEM_STORE
       (db (fst (handleUpdateItem (builtins := decimalBuiltins) Sample.eggs Sample.pantry)))
     !! "i-3"
     = Some (sanitizeItem (builtins := decimalBuiltins) Sample.eggs).
Proof.
  assert (Hnot : ~ In (Item.id Sample.eggs) (map Item.id (items Sample.pantry))).
  { simpl. intros [E|[E|[]]]; discriminate E. }
  destruct (edit_unlisted_item_only_stored (builtins := decimalBuiltins)
              Sample.eggs Sample.pantry eq_refl Hnot) as (H1 & H2 & _).
  split; [exact H1|exact H2].
Defined.

Lemma cycle_status_three_times_witness :
  items (fst (handleCycleStatus "i-1"
           (fst (handleCycleStatus "i-1"
              (fst (handleCycleStatus "i-1" Sample.pantry))))))
  = items Sample.pantry.
Proof.
  refine (cycle_status_three_times "i-1" Sample.pantry eq_refl _).
  intros item [<-|[<-|[]]] _; simpl; auto.
Defined.


Lemma sanitize_item_idempotent_witness :
  sanitizeItem (builtins := decimalBuiltins)
               (sanitizeItem (builtins := decimalBuiltins) Sample.rawMilk)
  = sanitizeItem (builtins := decimalBuiltins) Sample.rawMilk.
Proof.
  apply (sanitize_item_idempotent (builtins := decimalBuiltins)).
  vm_compute. discriminate.
Defined.

Lemma selector_round_trip_witness :
  handleCombinedChange (selectedValue Fixture.shop) Fixture.shop = Fixture.shop.
Proof.
  apply (proj1 (proj2 (selector_round_trip Fixture.shop))).
  left. reflexivity.
Defined.

Lemma add_price_row_capped_witness :
  exists item',
    handleAddStorePrice Sample.eggs = Some item'
    /\ Item.stores item' = Some [Sample.row "B" 1.00; StorePrice.mk "" (JStr "")].
Proof.
  assert (Hlen : (length [Sample.row "B" 1.00] <= MAX_STORES_PER_ITEM)%nat)
    by (vm_compute; lia).
  destruct (add_price_row_capped (builtins := decimalBuiltins)
              Sample.eggs [Sample.row "B" 1.00] eq_refl Hlen)
    as (item' & rows' & H1 & H2 & _ & _ & H5 & _).
  exists item'. split; [exact H1|].
  rewrite H2. f_equal. apply H5. vm_compute. lia.
Defined.

Lemma remove_price_row_witness :
  handleRemoveStorePrice 1 Sample.milk
  = Some (with_stores [Sample.row "A" 3.50; Sample.row "C" 2.00] Sample.milk).
Proof.
  destruct (remove_price_row 1 Sample.milk _ eq_refl) as (rows' & H1 & H2 & _).
  rewrite H1, H2. reflexivity.
Defined.

Lemma update_price_row_witness :
  exists rows',
    handleUpdateStorePrice 0 priceKey "4" Sample.milk
    = Some (with_stores rows' Sample.milk)
    /\ length rows' = 3%nat.
Proof.
  destruct (update_price_row 0 priceKey "4" Sample.milk _ _ eq_refl eq_refl)
    as (rows' & row' & H1 & H2 & _).
  exists rows'. split; [exact H1|exact H2].
Defined.

Lemma quantity_field_floor_witness :
  wholeQuantity
    (Item.quantity (handleQuantityChange (builtins := decimalBuiltins)
                                         (host := exampleHost) "0" Sample.milk)).
Proof.
  apply (proj2 (proj2 (quantity_field_floor (builtins := decimalBuiltins)
                         (host := exampleHost) "0" Sample.milk))).
  right. exists 0%Z. reflexivity.
Defined.

Lemma create_needs_name_witness :
  let unnamed := Item.mk "" "   " "Dairy" "Depleted" (JNum (Fin 1)) "" "" (Some []) in
  AddItemModal_handleCreate (builtins := decimalBuiltins) "i-9" unnamed Sample.pantry
  = (Sample.pantry, []).
Proof.
  cbv zeta.
  apply (proj1 (create_needs_name (builtins := decimalBuiltins) "i-9" _ Sample.pantry)).
  simpl. auto.
Defined.


Lemma delete_receipt_confirmed_witness :
  receipts (fst (handleDeleteReceipt true "r-1" Fixture.shop)) = [].
Proof.
  exact (proj1 (proj2 (delete_receipt_confirmed true "r-1" Fixture.shop)
                      eq_refl eq_refl)).
Defined.



Lemma text_sort_ordered_witness :
  StronglySorted
    (fun x y => String.ltb (Str.toLowerCase (Item.name y))
                           (Str.toLowerCase (Item.name x)) = false)
    (sorted (builtins := decimalBuiltins) "name-asc"
            [Sample.milk; Sample.bread; Sample.eggs]).
Proof.
  refine (proj1 (proj2 (proj2
            (text_sort_ordered (builtins := decimalBuiltins) "name"
               (fun a => Str.toLowerCase (Item.name a))
               [Sample.milk; Sample.bread; Sample.eggs] _)))).
  left. reflexivity.
Defined.

Lemma status_sort_ordered_witness :
  let l := [Sample.salt; Sample.milk; Sample.bread; Sample.eggs] in
  Forall recognised l
  /\ Permutation (sorted (builtins := decimalBuiltins) "status-asc" l) l.
Proof.
  cbv zeta.
  assert (Hl : Forall recognised [Sample.salt; Sample.milk; Sample.bread; Sample.eggs]).
  { repeat (constructor; [unfold recognised; simpl; auto 6|]). constructor. }
  split; [exact Hl|].
  exact (proj1 (status_sort_ordered (builtins := decimalBuiltins) _ Hl)).
Defined.

Lemma visible_is_selection_witness :
  showsAll Sample.pantry
  /\ Permutation (filteredAndSortedItems (builtins := decimalBuiltins) Sample.pantry)
                 (items Sample.pantry).
Proof.
  assert (Hall : showsAll Sample.pantry).
  { unfold showsAll. simpl. split_and!; auto; discriminate. }
  split; [exact Hall|].
  exact (proj2 (proj2 (proj2 (visible_is_selection (builtins := decimalBuiltins)
                                Sample.pantry))) Hall).
Defined.


Lemma receipts_stay_synced_witness :
  let st' := fst (handleDeleteReceipt true "r-1" Fixture.shop) in
  IDB.RECEIPT_STORE (db st') = keyed Receipt.id (receipts st').
Proof.
  cbv zeta.
  exact (proj1 (proj2 (receipts_stay_synced (builtins := decimalBuiltins)
                         Fixture.shop eq_refl (NoDup_singleton _))
                      true "r-1")).
Defined.

Lemma logged_receipt_snapshot_witness :
  exists r,
    receipts (fst (handleLogReceipt (builtins := decimalBuiltins)
                     "r-2" "2025-02-01T00:00:00.000Z" Fixture.shop))
    = r :: receipts Fixture.shop
    /\ Receipt.id r = "r-2" /\ Receipt.itemCount r = length (Receipt.items r).
Proof.
  assert (Hcount : (0 < totalVisibleItemCount (builtins := decimalBuiltins)
                           Fixture.shop)%nat) by (vm_compute; lia).
  destruct (logged_receipt_snapshot (builtins := decimalBuiltins)
              "r-2" "2025-02-01T00:00:00.000Z" Fixture.shop)
    as (_ & _ & _ & _ & _ & Hlog).
  destruct (Hlog eq_refl eq_refl Hcount) as (r & H1 & _ & H3 & _ & _ & H6 & _).
  exists r. split_and!; [exact H1|exact H3|exact H6].
Defined.

Lemma receipt_list_newest_first_witness :
  let later := Receipt.mk "r-2" "2025-03-01T00:00:00.000Z" "All" (JNum (Fin 0)) 0 [] in
  StronglySorted
    (fun x y => num_lt (dateValue (HostBuiltins := exampleHost) (Receipt.timestamp x))
                       (dateValue (HostBuiltins := exampleHost) (Receipt.timestamp y))
                = false)
    (filteredAndSortedReceipts (host := exampleHost) [Fixture.slip; later] "all" "all").
Proof.
  cbv zeta.
  refine (proj2 (proj2 (proj2 (proj2
            (receipt_list_newest_first (host := exampleHost) _ "all" "all")))) _).
  repeat constructor; vm_compute; discriminate.
Defined.
